(** * Lighthouse run orchestrator ([lighthouse-core/runner.js])

    A shallow embedding of the static methods of [class Runner] and the
    properties of the orchestrator proved over it.

    Conventions of the embedding.
    - JavaScript objects used as records of named values ([LH.Artifacts]) are
      association lists in insertion order, since [Object.values] observes that
      order; objects that are only compared or merged ([LH.Config.Settings],
      audit options, the computed cache) are finite maps.
    - A JavaScript number is the exact rational value of a finite double
      ([Qc], canonical rationals, so that [===] on numbers is equality).
    - [throw] / [try ... catch] is the sum type [Res]; [await] is plain
      sequencing, the runner awaits every promise before it goes on.
    - The arrays and maps shared by reference between the audits of one run
      ([LighthouseRunWarnings], [computedCache]) are threaded as a store.
    - Telemetry ([Sentry], [log.warn], [log.time]) never changes a result and
      is left out, except for the timing entries [log.takeTimeEntries] hands
      back, which are an input of [_getTiming]. *)

From Stdlib Require Import ZArith QArith Qabs Qcanon Qround Lia Lqa Ascii String.
From stdpp Require Import base option list strings gmap fin_maps sorting.

Set Default Proof Using "Type".
Set Warnings "-register-all,-clear-no-such-hyp".
Local Open Scope string_scope.
Local Open Scope list_scope.

(** ** Values *)

(** Plain structured data (what JSON can hold, plus [undefined]). *)
Inductive Data :=
| DUndefined
| DNull
| DBool (b : bool)
| DNum (n : Qc)
| DStr (s : string)
| DArr (items : list Data)
| DObj (props : list (string * Data)).

(** [Error] objects.  [PlainError] is an instance of [Error] only,
    [LHError] an instance of [lib/lh-error.js]'s class; the fields are the
    properties the runner reads or writes. *)
Inductive JSError :=
| PlainError (message : string) (friendlyMessage : option string) (expected : bool)
| LHError (code : string) (message : string) (friendlyMessage : option string)
          (lhrRuntimeError : bool).

Definition err_message (e : JSError) : string :=
  match e with
  | PlainError m _ _ => m
  | LHError _ m _ _ => m
  end.

Definition err_friendlyMessage (e : JSError) : option string :=
  match e with
  | PlainError _ f _ => f
  | LHError _ _ f _ => f
  end.

(** [new Error(message)]. *)
Definition new_Error (message : string) : JSError := PlainError message None false.

(** [error.expected = true]. *)
Definition set_expected (e : JSError) : JSError :=
  match e with
  | PlainError m f _ => PlainError m f true
  | LHError c m f r => LHError c m f r
  end.

(** A [PerformanceEntry] as the logger records it. *)
Record PerformanceEntry := mkEntry {
  name : string;
  startTime : Qc;
  duration : Qc;
  entryType : string
}.

(** The value stored under one key of [LH.Artifacts].  An array of
    performance entries is always an [ATiming] and an embedded settings object
    an [ASettings]; [AData] is every other value that is no [Error]. *)
Inductive ArtifactValue :=
| AData (d : Data)
| ATiming (entries : list PerformanceEntry)
| ASettings (s : gmap string Data)
| AError (e : JSError).

Abbreviation Settings := (gmap string Data).
Abbreviation Artifacts := (list (string * ArtifactValue)).

Abbreviation AUndefined := (AData DUndefined).

(** ** Results of fallible code *)

Definition Res (A : Type) : Type := JSError + A.
Definition ok {A} (a : A) : Res A := inr a.
Definition throw {A} (e : JSError) : Res A := inl e.
Definition bind {A B} (m : Res A) (k : A -> Res B) : Res B :=
  match m with
  | inl e => inl e
  | inr a => k a
  end.

Notation "'let*' x := m 'in' k" := (bind m (fun x => k))
  (at level 10, x pattern, m at level 200, k at level 200, only parsing).

(** ** JavaScript primitives the runner relies on *)

(** Truthiness of a string: only the empty string is falsy. *)
Definition str_truthy (s : string) : bool :=
  match s with
  | EmptyString => false
  | String _ _ => true
  end.

(** [ToBoolean] on plain data. *)
Definition truthy (d : Data) : bool :=
  match d with
  | DUndefined | DNull => false
  | DBool b => b
  | DNum n => negb (Qeq_bool n 0)
  | DStr s => str_truthy s
  | DArr _ | DObj _ => true
  end.

(** [a || b] where [a] is a string or [undefined] and [b] a string. *)
Definition or_else (a : option string) (b : string) : string :=
  match a with
  | Some s => if str_truthy s then s else b
  | None => b
  end.

(** Own-property lookup in an object kept as an association list. *)
Fixpoint assoc {V} (k : string) (o : list (string * V)) : option V :=
  match o with
  | [] => None
  | (k', v) :: o' => if String.eqb k' k then Some v else assoc k o'
  end.

(** [artifacts[name]]: [undefined] when the key is not there. *)
Definition js_get (artifactName : string) (artifacts : Artifacts) : ArtifactValue :=
  match assoc artifactName artifacts with
  | Some v => v
  | None => AUndefined
  end.

(** [obj[k] = v]: overwrite in place, or append a new key. *)
Fixpoint js_set {V} (k : string) (v : V) (o : list (string * V)) : list (string * V) :=
  match o with
  | [] => [(k, v)]
  | (k', v') :: o' =>
      if String.eqb k' k then (k', v) :: o' else (k', v') :: js_set k v o'
  end.

(** [Object.values(obj)]. *)
Definition Object_values {V} (o : list (string * V)) : list V := map snd o.

(** [v === undefined]. *)
Definition is_undefined (v : ArtifactValue) : bool :=
  match v with
  | AData DUndefined => true
  | _ => false
  end.

(** [v instanceof Error]. *)
Definition instanceof_Error (v : ArtifactValue) : bool :=
  match v with
  | AError _ => true
  | _ => false
  end.

(** The message V8 gives the [TypeError] of a property read on [undefined]
    or [null]. *)
Definition TypeError_read (prop : string) (receiver : Data) : JSError :=
  new_Error ("Cannot read property '" +:+ prop +:+ "' of " +:+
             match receiver with DNull => "null" | _ => "undefined" end).

(** [v[prop]] for an artifact value [v]: a [TypeError] on [undefined] and
    [null], the own property of a plain object or of the settings object, and
    [undefined] for everything else (primitives, arrays and [Error]s have no
    own property of the names the runner asks for). *)
Definition get_prop (v : ArtifactValue) (prop : string) : Res Data :=
  match v with
  | AData DUndefined => throw (TypeError_read prop DUndefined)
  | AData DNull => throw (TypeError_read prop DNull)
  | AData (DObj props) => ok (default DUndefined (assoc prop props))
  | ASettings s => ok (default DUndefined (s !! prop))
  | _ => ok DUndefined
  end.

(** ** Runtime error extraction: [Runner.getArtifactRuntimeError] *)

Record RuntimeError := mkRuntimeError {
  re_code : string;
  re_message : string
}.

(** [x instanceof LHError && x.lhrRuntimeError] *)
Definition is_runtime_error (v : ArtifactValue) : bool :=
  match v with
  | AError (LHError _ _ _ flag) => flag
  | _ => false
  end.

(** The body of the [for ... of] loop over [possibleErrorArtifacts]. *)
Fixpoint firstRuntimeError (possibleErrorArtifacts : list ArtifactValue)
  : option RuntimeError :=
  match possibleErrorArtifacts with
  | [] => None
  | AError (LHError code message friendlyMessage true) :: _ =>
      Some {| re_code := code; re_message := or_else friendlyMessage message |}
  | _ :: rest => firstRuntimeError rest
  end.

Definition getArtifactRuntimeError (artifacts : Artifacts) : option RuntimeError :=
  firstRuntimeError (js_get "PageLoadError" artifacts :: Object_values artifacts).

(** ** Timing aggregation: [Runner._getTiming] *)

(** [map.set(k, v)] on a [Map] kept as its list of entries in insertion
    order: a key already there keeps its position and gets the new value. *)
Fixpoint Map_set {V} (k : Qc) (v : V) (m : list (Qc * V)) : list (Qc * V) :=
  match m with
  | [] => [(k, v)]
  | (k', v') :: m' =>
      if decide (k' = k) then (k', v) :: m' else (k', v') :: Map_set k v m'
  end.

(** [new Map(keyValues)]. *)
Definition new_Map {V} (keyValues : list (Qc * V)) : list (Qc * V) :=
  fold_left (fun m kv => Map_set kv.1 kv.2 m) keyValues [].

(** [map.values()]. *)
Definition Map_values {V} (m : list (Qc * V)) : list V := map snd m.

(** [parseFloat(x.toFixed(2))].  [toFixed] takes the integer [n] for which
    [n / 100] is closest to [|x|], the larger one on a tie, and puts the sign
    back; from [10^21] on it prints the number itself.  The result is the
    decimal that was printed: that [parseFloat] lands on the double next to it
    is below what rationals can say. *)
Definition toFixed2 (x : Qc) : Qc :=
  if Qle_bool (10 ^ 21) (Qabs x) then x
  else Q2Qc (inject_Z (Z.sgn (Qnum x) * Qfloor (Qabs x * 100 + (1 # 2))) / 100).

(** The object literal built for each entry that survives. *)
Definition truncateEntry (entry : PerformanceEntry) : PerformanceEntry :=
  {| startTime := toFixed2 (startTime entry);
     name := name entry;
     duration := toFixed2 (duration entry);
     entryType := entryType entry |}.

Record Timing := mkTiming {
  entries : list PerformanceEntry;
  total : Qc
}.

(** A [TypeError] whose text depends on the engine. *)
Definition TypeError_not_iterable : JSError :=
  new_Error "artifacts.Timing is not iterable".

(** [artifacts.Timing || []], spread.  [LH.Artifacts] types the entry as an
    array of performance entries; any other truthy value cannot be spread
    into entries and ends in a [TypeError]. *)
Definition artifacts_Timing (artifacts : Artifacts) : Res (list PerformanceEntry) :=
  match js_get "Timing" artifacts with
  | ATiming l => ok l
  | AData (DArr []) => ok []
  | AData d => if truthy d then throw TypeError_not_iterable else ok []
  | _ => throw TypeError_not_iterable
  end.

(** The entries before they are truncated: both lists, one entry per
    [startTime]. *)
Definition dedupedEntries (timingEntriesFromArtifacts timingEntriesFromRunner
                           : list PerformanceEntry) : list PerformanceEntry :=
  let timingEntriesKeyValues :=
    map (fun entry => (startTime entry, entry))
        (timingEntriesFromArtifacts ++ timingEntriesFromRunner) in
  Map_values (new_Map timingEntriesKeyValues).

(** [runnerEntry && runnerEntry.duration || 0] *)
Definition runnerTotal (runnerEntry : option PerformanceEntry) : Qc :=
  match runnerEntry with
  | Some e => if truthy (DNum (duration e)) then duration e else 0%Qc
  | None => 0%Qc
  end.

(** What [_getTiming] makes of its two lists of entries. *)
Definition aggregateTiming (timingEntriesFromArtifacts timingEntriesFromRunner
                            : list PerformanceEntry) : Timing :=
  let timingEntries :=
    map truncateEntry (dedupedEntries timingEntriesFromArtifacts timingEntriesFromRunner) in
  let runnerEntry := find (fun e => String.eqb (name e) "lh:runner:run") timingEntries in
  {| entries := timingEntries; total := runnerTotal runnerEntry |}.

(** [timingEntriesFromRunner] is what [log.takeTimeEntries()] returns. *)
Definition _getTiming (timingEntriesFromRunner : list PerformanceEntry)
                      (artifacts : Artifacts) : Res Timing :=
  let* timingEntriesFromArtifacts := artifacts_Timing artifacts in
  ok (aggregateTiming timingEntriesFromArtifacts timingEntriesFromRunner).

(** ** Audits *)

Record AuditMeta := mkMeta {
  id : string;
  title : string;
  requiredArtifacts : list string
}.

(** The members of [LH.Audit.Context] shared by every audit of a run.  The
    array and the map are shared by reference: an audit gets their contents
    and hands back what it left in them. *)
Record SharedAuditContext := mkShared {
  settings : Settings;
  LighthouseRunWarnings : list string;
  computedCache : gmap string Data
}.

(** [{options: auditOptions, ...sharedAuditContext}] *)
Record AuditContext := mkContext {
  options : gmap string Data;
  shared : SharedAuditContext
}.

(** [LH.Audit.Product], what an audit's scoring logic returns. *)
Record Product := mkProduct {
  score : option Qc;
  details : Data
}.

(** An audit class: its static [meta], [defaultOptions] and [audit]. *)
Record AuditClass := mkAudit {
  meta : AuditMeta;
  defaultOptions : gmap string Data;
  audit : Artifacts -> AuditContext -> Res Product * SharedAuditContext
}.

(** [LH.Config.AuditDefn] *)
Record AuditDefn := mkDefn {
  implementation : AuditClass;
  defn_options : option (gmap string Data)
}.

(** The part of [audits/audit.js] the runner calls. *)
Module Audit.

(** Modelled from the spec: the constant [Audit.DEFAULT_PASS] of
    [audits/audit.js], the name of the default-pass sub-entry of the
    [traces] artifact. *)
Definition DEFAULT_PASS : string := "defaultPass".

Local Abbreviation meta_id audit := (id (meta audit)).
Local Abbreviation product_score := score.
Local Abbreviation product_details := details.

(** [LH.Audit.Result] *)
Record Result := mkResult {
  id : string;
  score : option Qc;
  details : Data;
  errorMessage : option string
}.

(** Modelled from the spec: [Audit.generateAuditResult] of
    [audits/audit.js], the result-generation step that maps the raw
    product of an audit into [{id, score, details}]. *)
Definition generateAuditResult (audit : AuditClass) (product : Product) : Result :=
  {| id := meta_id audit;
     score := product_score product;
     details := product_details product;
     errorMessage := None |}.

(** Modelled from the spec: [Audit.generateErrorAuditResult] of
    [audits/audit.js], the error audit result (no score) that carries the
    message. *)
Definition generateErrorAuditResult (audit : AuditClass) (errorMessage : string)
  : Result :=
  {| id := meta_id audit;
     score := None;
     details := DUndefined;
     errorMessage := Some errorMessage |}.

End Audit.

(** What the run has done to the outside, in order: an event is recorded
    when the call it stands for has returned. *)
Inductive Event :=
| ArtifactsLoaded (path : string)
| Gathered (passes : list string) (requestedUrl : string)
| ArtifactsSaved (artifacts : Artifacts) (path : string)
| AuditInvoked (auditId : string) (artifacts : Artifacts) (context : AuditContext).

(** [Object.assign({}, a, b)] on finite maps: [b] wins key by key. *)
Definition Object_assign (a b : gmap string Data) : gmap string Data := b ∪ a.

(** One turn of the loop over [audit.meta.requiredArtifacts]. *)
Definition checkRequiredArtifact (artifacts : Artifacts) (artifactName : string)
  : Res unit :=
  let noArtifact := is_undefined (js_get artifactName artifacts) in
  let* noTrace :=
    (if String.eqb artifactName "traces"
     then let* trace := get_prop (js_get "traces" artifacts) Audit.DEFAULT_PASS in
          ok (negb (truthy trace))
     else ok false) in
  if noArtifact || noTrace
  then throw (new_Error ("Required " +:+ artifactName +:+ " gatherer did not run."))
  else
    match js_get artifactName artifacts with
    | AError artifactError =>
        throw (set_expected (new_Error
          ("Required " +:+ artifactName +:+ " gatherer encountered an error: "
           +:+ err_message artifactError)))
    | _ => ok tt
    end.

Fixpoint checkRequiredArtifacts (artifacts : Artifacts) (names : list string)
  : Res unit :=
  match names with
  | [] => ok tt
  | artifactName :: rest =>
      let* _ := checkRequiredArtifact artifacts artifactName in
      checkRequiredArtifacts artifacts rest
  end.

(** The [reduce] that builds the object handed to the audit. *)
Definition pickRequiredArtifacts (names : list string) (artifacts : Artifacts)
  : Artifacts :=
  fold_left (fun requiredArtifacts artifactName =>
               js_set artifactName (js_get artifactName artifacts) requiredArtifacts)
            names [].

(** The [try] block of [_runAudit]. *)
Definition tryAudit (auditDefn : AuditDefn) (artifacts : Artifacts)
    (sharedAuditContext : SharedAuditContext) (trace : list Event)
  : Res Audit.Result * SharedAuditContext * list Event :=
  let audit_ := implementation auditDefn in
  match checkRequiredArtifacts artifacts (requiredArtifacts (meta audit_)) with
  | inl err => (throw err, sharedAuditContext, trace)
  | inr _ =>
      let auditOptions :=
        Object_assign (defaultOptions audit_) (default ∅ (defn_options auditDefn)) in
      let auditContext := {| options := auditOptions; shared := sharedAuditContext |} in
      let requiredArtifacts_ :=
        pickRequiredArtifacts (requiredArtifacts (meta audit_)) artifacts in
      let '(product, sharedAfter) := audit audit_ requiredArtifacts_ auditContext in
      (let* product := product in ok (Audit.generateAuditResult audit_ product),
       sharedAfter,
       trace ++ [AuditInvoked (id (meta audit_)) requiredArtifacts_ auditContext])
  end.

Definition _runAudit (auditDefn : AuditDefn) (artifacts : Artifacts)
    (sharedAuditContext : SharedAuditContext) (trace : list Event)
  : Audit.Result * SharedAuditContext * list Event :=
  let audit_ := implementation auditDefn in
  let '(attempt, sharedAfter, trace') :=
    tryAudit auditDefn artifacts sharedAuditContext trace in
  match attempt with
  | inr auditResult => (auditResult, sharedAfter, trace')
  | inl err =>
      let errorMessage := or_else (err_friendlyMessage err) (err_message err) in
      (Audit.generateErrorAuditResult audit_ errorMessage, sharedAfter, trace')
  end.

(** ** Settings compatibility and the audit loop: [Runner._runAudits] *)

(** Structural equality of plain data is decidable. *)
Fixpoint Data_eq_dec (x y : Data) : {x = y} + {x <> y}.
Proof.
  decide equality;
    first [ apply bool_eq_dec
          | apply Qc_eq_dec
          | apply String.string_dec
          | apply (@list_eq_dec _ Data_eq_dec)
          | apply (@list_eq_dec _ (@prod_eq_dec _ String.string_dec _ Data_eq_dec)) ].
Defined.

#[global] Instance Data_eq_decision : EqDecision Data := Data_eq_dec.

(** [lodash.isequal] on two settings objects: the same keys with deeply
    equal values, whatever the order of the keys (nested records are kept
    with their keys in one canonical order). *)
Definition isDeepEqual (a b : gmap string Data) : bool := bool_decide (a = b).

(** The [overrides] literal of [_runAudits]. *)
Definition overrides : gmap string Data :=
  <["locale" := DUndefined]>
    (<["gatherMode" := DUndefined]>
       (<["auditMode" := DUndefined]>
          (<["output" := DUndefined]>
             (<["budgets" := DUndefined]> ∅)))).

(** [artifacts.settings] when it is truthy.  [LH.Artifacts] types the entry
    as [Config.Settings]; a plain object literal is read as the settings it
    spells, and a truthy value of any other shape as an object that has none
    of the properties compared. *)
Definition artifacts_settings (artifacts : Artifacts) : option Settings :=
  match js_get "settings" artifacts with
  | ASettings s => Some s
  | AData (DObj props) => Some (list_to_map props)
  | AData d => if truthy d then Some ∅ else None
  | _ => Some ∅
  end.

(** The guard at the head of [_runAudits]. *)
Definition checkSettings (settings : Settings) (artifacts : Artifacts) : Res unit :=
  match artifacts_settings artifacts with
  | Some gatherSettings =>
      let normalizedGatherSettings := Object_assign gatherSettings overrides in
      let normalizedAuditSettings := Object_assign settings overrides in
      if negb (isDeepEqual normalizedGatherSettings normalizedAuditSettings)
      then throw (new_Error "Cannot change settings between gathering and auditing")
      else ok tt
  | None => ok tt
  end.

(** The [for ... of] loop of [_runAudits]: one audit after the other, each
    on the shared context the one before left. *)
Fixpoint runAuditsLoop (audits : list AuditDefn) (artifacts : Artifacts)
    (sharedAuditContext : SharedAuditContext) (trace : list Event)
  : list Audit.Result * SharedAuditContext * list Event :=
  match audits with
  | [] => ([], sharedAuditContext, trace)
  | auditDefn :: rest =>
      let '(auditResult, shared1, trace1) :=
        _runAudit auditDefn artifacts sharedAuditContext trace in
      let '(auditResults, shared2, trace2) :=
        runAuditsLoop rest artifacts shared1 trace1 in
      (auditResult :: auditResults, shared2, trace2)
  end.

(** Code that can throw and that leaves events behind. *)
Definition M (A : Type) : Type := list Event -> Res A * list Event.
Definition ret {A} (a : A) : M A := fun trace => (ok a, trace).
Definition raise {A} (e : JSError) : M A := fun trace => (throw e, trace).
Definition lift {A} (r : Res A) : M A := fun trace => (r, trace).
Definition emit (e : Event) : M unit := fun trace => (ok tt, trace ++ [e]).
Definition mbind {A B} (m : M A) (k : A -> M B) : M B :=
  fun trace =>
    match m trace with
    | (inl e, trace') => (inl e, trace')
    | (inr a, trace') => k a trace'
    end.

Notation "'let!' x := m 'in' k" := (mbind m (fun x => k))
  (at level 10, x pattern, m at level 200, k at level 200, only parsing).

(** [_runAudits] returns the results; the second component is what the
    [runWarnings] array, which the caller keeps, holds afterwards. *)
Definition _runAudits (settings : Settings) (audits : list AuditDefn)
    (artifacts : Artifacts) (runWarnings : list string)
  : M (list Audit.Result * list string) :=
  let! _ := lift (checkSettings settings artifacts) in
  fun trace =>
    let sharedAuditContext :=
      {| settings := settings;
         LighthouseRunWarnings := runWarnings;
         computedCache := ∅ |} in
    let '(auditResults, sharedAfter, trace') :=
      runAuditsLoop audits artifacts sharedAuditContext trace in
    (ok (auditResults, LighthouseRunWarnings sharedAfter), trace').

(** ** The run: [Runner.run] *)

(** Modelled from the spec: a canonical URL without its fragment
    identifier, which starts at the first [#]. *)
Fixpoint excludeFragment (href : string) : string :=
  match href with
  | EmptyString => EmptyString
  | String c rest =>
      if Ascii.eqb c "#"%char then EmptyString else String c (excludeFragment rest)
  end.

(** Modelled from the spec: [URL.equalWithExcludedFragments] of
    [lib/url-shim.js], which holds when both strings parse as URLs that denote
    the same resource once the fragment identifier is left out.  [href] is the
    parser, [new URL(u).href], [None] where the constructor throws. *)
Definition equalWithExcludedFragments (href : string -> option string)
    (url1 url2 : string) : bool :=
  match href url1, href url2 with
  | Some a, Some b => String.eqb (excludeFragment a) (excludeFragment b)
  | _, _ => false
  end.

(** [gatherOpts] without the driver. *)
Record GatherOpts := mkGatherOpts {
  requestedUrl : string;
  gather_settings : Settings
}.

(** What the runner gets from outside the repository's orchestration code:
    Node's [path] and [process], the WHATWG URL parser, the asset saver, the
    gather runner with its driver and connection, and the logger. *)
Record Env := mkEnv {
  cwd : string;
  path_resolve : string -> string -> string;
  path_join : string -> string -> string;
  URL_href : string -> option string;
  loadArtifacts : string -> Res Artifacts;
  saveArtifacts : Artifacts -> string -> Res unit;
  GatherRunner_run : list string -> GatherOpts -> Res Artifacts;
  takeTimeEntries : list PerformanceEntry
}.

Record Config := mkConfig {
  config_settings : Settings;
  passes : option (list string);
  audits : option (list AuditDefn)
}.

Record RunOpts := mkRunOpts {
  config : Config;
  url : option string
}.

(** The fields of [LH.Result] the runner computes itself.  Those it copies
    from an artifact unread ([userAgent], [environment], [fetchTime]) and
    those other modules compute from the ones here ([categories], [i18n],
    [stackPacks], the report) are left out. *)
Record LHR := mkLHR {
  lhr_requestedUrl : Data;
  finalUrl : Data;
  runWarnings : list Data;
  runtimeError : option RuntimeError;
  lhr_audits : list (string * Audit.Result);
  configSettings : Settings;
  timing : Timing
}.

Record RunnerResult := mkRunnerResult {
  lhr : LHR;
  artifacts : Artifacts
}.

(** [settings[key]] *)
Definition setting (settings : Settings) (key : string) : Data :=
  default DUndefined (settings !! key).

Definition _getArtifactsPath (E : Env) (settings : Settings) : string :=
  let auditMode := setting settings "auditMode" in
  let gatherMode := setting settings "gatherMode" in
  match auditMode, gatherMode with
  | DStr auditMode, _ => path_resolve E (cwd E) auditMode
  | _, DStr gatherMode => path_resolve E (cwd E) gatherMode
  | _, _ => path_join E (cwd E) "latest-run"
  end.

Definition _gatherArtifactsFromBrowser (E : Env) (requestedUrl : string)
    (runnerOpts : RunOpts) : M Artifacts :=
  match passes (config runnerOpts) with
  | None => raise (new_Error "No browser artifacts are either provided or requested.")
  | Some passes =>
      let gatherOpts :=
        {| requestedUrl := requestedUrl;
           gather_settings := config_settings (config runnerOpts) |} in
      let! artifacts := lift (GatherRunner_run E passes gatherOpts) in
      let! _ := emit (Gathered passes requestedUrl) in
      ret artifacts
  end.

(** [runOpts.url] as the template literal prints it. *)
Definition print_url (url : option string) : string := default "undefined" url.

(** The gather phase of [run]: the artifacts and the requested URL.  A
    persisted [requestedUrl] that is truthy and no string is the URL of
    nothing that can be supplied. *)
Definition gatherPhase (E : Env) (runOpts : RunOpts) : M (Artifacts * Data) :=
  let settings := config_settings (config runOpts) in
  if truthy (setting settings "auditMode") && negb (truthy (setting settings "gatherMode"))
  then
    let path := _getArtifactsPath E settings in
    let! artifacts := lift (loadArtifacts E path) in
    let! _ := emit (ArtifactsLoaded path) in
    let! requestedUrl := lift (get_prop (js_get "URL" artifacts) "requestedUrl") in
    if negb (truthy requestedUrl)
    then raise (new_Error "Cannot run audit mode on empty URL")
    else
      match url runOpts, requestedUrl with
      | Some url, DStr requestedUrl_ =>
          if str_truthy url && negb (equalWithExcludedFragments (URL_href E) url requestedUrl_)
          then raise (new_Error "Cannot run audit mode on different URL")
          else ret (artifacts, requestedUrl)
      | Some url, _ =>
          if str_truthy url
          then raise (new_Error "Cannot run audit mode on different URL")
          else ret (artifacts, requestedUrl)
      | None, _ => ret (artifacts, requestedUrl)
      end
  else
    match url runOpts with
    | Some (String _ _ as url) =>
        match URL_href E url with
        | None =>
            raise (new_Error "The url provided should have a proper protocol and hostname.")
        | Some requestedUrl =>
            let! artifacts := _gatherArtifactsFromBrowser E requestedUrl runOpts in
            let! _ :=
              (if truthy (setting settings "gatherMode")
               then
                 let path := _getArtifactsPath E settings in
                 let! _ := lift (saveArtifacts E artifacts path) in
                 emit (ArtifactsSaved artifacts path)
               else ret tt) in
            ret (artifacts, DStr requestedUrl)
        end
    | other =>
        raise (new_Error ("You must provide a url to the runner. '" +:+ print_url other
                          +:+ "' provided."))
    end.

(** A performance entry pushed into an array of plain data. *)
Definition entry_data (e : PerformanceEntry) : Data :=
  DObj [("name", DStr (name e)); ("startTime", DNum (startTime e));
        ("duration", DNum (duration e)); ("entryType", DStr (entryType e))].

Fixpoint chars (s : string) : list Data :=
  match s with
  | EmptyString => []
  | String c rest => DStr (String c EmptyString) :: chars rest
  end.

(** [...artifacts.LighthouseRunWarnings] when the entry is truthy, nothing
    when it is not. *)
Definition artifacts_LighthouseRunWarnings (artifacts : Artifacts) : Res (list Data) :=
  match js_get "LighthouseRunWarnings" artifacts with
  | AData (DArr items) => ok items
  | AData (DStr s) => ok (chars s)
  | ATiming l => ok (map entry_data l)
  | AData d => if truthy d then throw (new_Error "object is not iterable") else ok []
  | _ => throw (new_Error "object is not iterable")
  end.

(** The audit phase and the construction of the result. *)
Definition auditPhase (E : Env) (runOpts : RunOpts) (artifacts : Artifacts)
    (requestedUrl : Data) : M (option RunnerResult) :=
  let settings := config_settings (config runOpts) in
  match audits (config runOpts) with
  | None => raise (new_Error "No audits to evaluate.")
  | Some audits =>
      let! (auditResults, lighthouseRunWarnings) :=
        _runAudits settings audits artifacts [] in
      let! fromArtifacts := lift (artifacts_LighthouseRunWarnings artifacts) in
      let lighthouseRunWarnings := map DStr lighthouseRunWarnings ++ fromArtifacts in
      let resultsById :=
        fold_left (fun resultsById audit => js_set (Audit.id audit) audit resultsById)
                  auditResults [] in
      let! finalUrl := lift (get_prop (js_get "URL" artifacts) "finalUrl") in
      let runtimeError := getArtifactRuntimeError artifacts in
      let! timing := lift (_getTiming (takeTimeEntries E) artifacts) in
      ret (Some {| lhr := {| lhr_requestedUrl := requestedUrl;
                             finalUrl := finalUrl;
                             runWarnings := lighthouseRunWarnings;
                             runtimeError := runtimeError;
                             lhr_audits := resultsById;
                             configSettings := settings;
                             timing := timing |};
                   artifacts := artifacts |})
  end.

(** [run] resolves to a result, to [undefined] ([None]), or rejects with the
    error it caught and threw again (the [catch] block only has [i18n] put the
    error's friendly message in the run's locale and reports to [Sentry]). *)
Definition run (E : Env) (runOpts : RunOpts) : M (option RunnerResult) :=
  let settings := config_settings (config runOpts) in
  let! (artifacts, requestedUrl) := gatherPhase E runOpts in
  if truthy (setting settings "gatherMode") && negb (truthy (setting settings "auditMode"))
  then ret None
  else auditPhase E runOpts artifacts requestedUrl.

(** ** Vocabulary of the properties *)

(** [s.includes(sub)] *)
Fixpoint includes (s sub : string) : bool :=
  if String.prefix sub s then true
  else match s with
       | EmptyString => false
       | String _ rest => includes rest sub
       end.

(** The [{code, message}] pair of a value that is a runtime error. *)
Definition runtimeErrorOf (v : ArtifactValue) : option RuntimeError :=
  match v with
  | AError (LHError code message friendlyMessage true) =>
      Some {| re_code := code; re_message := or_else friendlyMessage message |}
  | _ => None
  end.

(** An artifact that is not there: no such key, [undefined], or the [null]
    the gather runner starts [PageLoadError] with. *)
Definition is_absent (v : ArtifactValue) : bool :=
  match v with
  | AData DUndefined | AData DNull => true
  | _ => false
  end.

(** The extractor read as "[PageLoadError] first, and every value only if
    [PageLoadError] is absent". *)
Definition runtimeError_onlyIfAbsent (artifacts : Artifacts) : option RuntimeError :=
  if is_absent (js_get "PageLoadError" artifacts)
  then firstRuntimeError (Object_values artifacts)
  else runtimeErrorOf (js_get "PageLoadError" artifacts).

(** An audit result that reports an error. *)
Definition isErrorResult (r : Audit.Result) : Prop := is_Some (Audit.errorMessage r).

(** [traces] has no truthy default-pass sub-entry. *)
Definition noDefaultPass (artifacts : Artifacts) : bool :=
  match get_prop (js_get "traces" artifacts) Audit.DEFAULT_PASS with
  | inr trace => negb (truthy trace)
  | inl _ => true
  end.

(** A required artifact the audit can be run on: it is there, with its
    default pass when it is [traces], and it is not an error. *)
Definition artifactReady (artifacts : Artifacts) (artifactName : string) : bool :=
  negb (is_undefined (js_get artifactName artifacts))
  && negb (String.eqb artifactName "traces" && noDefaultPass artifacts)
  && negb (instanceof_Error (js_get artifactName artifacts)).

(** The fields that may differ between gathering and auditing. *)
Definition excludedFields : list string :=
  ["locale"; "gatherMode"; "auditMode"; "output"; "budgets"].

(** Settings with the excluded fields left out. *)
Definition excludeFields (s : Settings) : Settings :=
  foldr delete s excludedFields.

(** Two settings are compatible when they are equal once the excluded
    fields are left out. *)
Definition compatible (a b : Settings) : Prop := excludeFields a = excludeFields b.

(** No audit was invoked in this stretch of the trace. *)
Definition noAuditInvoked (trace : list Event) : Prop :=
  Forall (fun e => match e with AuditInvoked _ _ _ => False | _ => True end) trace.

(** Modelled from the spec: the contract of the collection driver
    ([gather/gather-runner.js], not part of the orchestrator), whose artifact
    set records under [URL.requestedUrl] the URL it was asked to load. *)
Definition recordsRequestedUrl (E : Env) : Prop :=
  forall passes gatherOpts artifacts,
    GatherRunner_run E passes gatherOpts = ok artifacts ->
    get_prop (js_get "URL" artifacts) "requestedUrl" = ok (DStr (requestedUrl gatherOpts)).

(** The last entry of a list that starts at a given time. *)
Fixpoint lastStartingAt (t : Qc) (l : list PerformanceEntry) : option PerformanceEntry :=
  match l with
  | [] => None
  | e :: rest =>
      match lastStartingAt t rest with
      | Some e' => Some e'
      | None => if decide (startTime e = t) then Some e else None
      end
  end.

(** The ids of the audits invoked in a stretch of the trace, in order. *)
Fixpoint invokedIds (trace : list Event) : list string :=
  match trace with
  | [] => []
  | AuditInvoked auditId _ _ :: rest => auditId :: invokedIds rest
  | _ :: rest => invokedIds rest
  end.

(** An audit all of whose required artifacts can be used. *)
Definition auditReady (artifacts : Artifacts) (auditDefn : AuditDefn) : bool :=
  forallb (artifactReady artifacts) (requiredArtifacts (meta (implementation auditDefn))).

(** ** Sample inputs *)

(** An audit that scores 1, lists in its details the names of the artifacts
    it was handed and notes in the computed cache that it ran. *)
Definition sampleAudit (auditId : string) (required : list string) : AuditClass :=
  {| meta := {| id := auditId; title := auditId; requiredArtifacts := required |};
     defaultOptions := ∅;
     audit := fun artifacts context =>
       (ok {| score := Some 1%Qc; details := DArr (map (fun kv => DStr kv.1) artifacts) |},
        {| settings := settings (shared context);
           LighthouseRunWarnings := LighthouseRunWarnings (shared context);
           computedCache := <[auditId := DBool true]> (computedCache (shared context)) |}) |}.

Definition sampleDefn (auditId : string) (required : list string) : AuditDefn :=
  {| implementation := sampleAudit auditId required; defn_options := None |}.

Definition sampleAudits : list AuditDefn :=
  [sampleDefn "viewport" ["Viewport"];
   sampleDefn "font-display" ["Fonts"; "URL"];
   sampleDefn "first-meaningful-paint" ["traces"; "Viewport"]].

Definition gatherSettings : Settings :=
  <["throttlingMethod" := DStr "simulate"]>
    (<["gatherMode" := DBool true]> (<["locale" := DStr "fr"]> ∅)).

Definition analyzeSettings : Settings :=
  <["throttlingMethod" := DStr "simulate"]>
    (<["auditMode" := DBool true]> (<["locale" := DStr "en-US"]> ∅)).

Definition sampleArtifacts : Artifacts :=
  [("URL", AData (DObj [("requestedUrl", DStr "https://example.com/");
                        ("finalUrl", DStr "https://example.com/")]));
   ("settings", ASettings gatherSettings);
   ("Viewport", AData (DStr "width=device-width"));
   ("traces", AData (DObj [("defaultPass", DObj [])]));
   ("Fonts", AError (PlainError "timed out" None false));
   ("Timing", ATiming [{| name := "lh:gather:loadPage"; startTime := 1%Qc;
                          duration := Q2Qc (1234567 # 1000); entryType := "measure" |}])].

(** An environment whose URL parser takes what starts with [https://] as it
    is, whose disk holds [sampleArtifacts], and whose gather runner records
    the URL and the settings it was given. *)
Definition sampleEnv : Env :=
  {| cwd := "/home/user";
     path_resolve := fun from to => from +:+ "/" +:+ to;
     path_join := fun a b => a +:+ "/" +:+ b;
     URL_href := fun u => if String.prefix "https://" u then Some u else None;
     loadArtifacts := fun _ => ok sampleArtifacts;
     saveArtifacts := fun _ _ => ok tt;
     GatherRunner_run := fun _ gatherOpts =>
       ok [("URL", AData (DObj [("requestedUrl", DStr (requestedUrl gatherOpts));
                                ("finalUrl", DStr (requestedUrl gatherOpts))]));
           ("settings", ASettings (gather_settings gatherOpts))];
     takeTimeEntries := [] |}.

(** A gather runner that hands back artifacts gathered under other
    settings than the ones it is given. *)
Definition staleGatherEnv : Env :=
  {| cwd := cwd sampleEnv;
     path_resolve := path_resolve sampleEnv;
     path_join := path_join sampleEnv;
     URL_href := URL_href sampleEnv;
     loadArtifacts := loadArtifacts sampleEnv;
     saveArtifacts := saveArtifacts sampleEnv;
     GatherRunner_run := fun _ _ => ok sampleArtifacts;
     takeTimeEntries := [] |}.

(** Settings of a run that gathers and audits in one go, with neither
    [gatherMode] nor [auditMode]. *)
Definition fullRunSettings : Settings := <["throttlingMethod" := DStr "devtools"]> ∅.

Definition sampleConfig (settings : Settings) : Config :=
  {| config_settings := settings;
     passes := Some ["defaultPass"];
     audits := Some sampleAudits |}.

(** A configuration that asks for audits only. *)
Definition auditsOnlyConfig (settings : Settings) : Config :=
  {| config_settings := settings;
     passes := None;
     audits := Some sampleAudits |}.

(** ** Listing audits and gatherers: [Runner.getAuditList], [Runner.getGathererList] *)

(** What the two listings get from Node: the directory of [runner.js] and
    [fs.readdirSync], which throws where a directory cannot be read. *)
Record FileSystem := mkFileSystem {
  dirname : string;
  readdirSync : string -> Res (list string)
}.

(** [/\.js$/.test(f)]: [f] ends with [.js] (without the [m] flag, [$] is
    the end of the input). *)
Fixpoint endsWithJs (f : string) : bool :=
  if String.eqb f ".js" then true
  else match f with
       | EmptyString => false
       | String _ rest => endsWithJs rest
       end.

(** [list.includes(f)] on an array of strings. *)
Definition Array_includes (list : list string) (f : string) : bool :=
  existsb (String.eqb f) list.

(** [array.sort()] on an array of strings: by UTF-16 code units, which for
    file names of one-byte characters is [String.le].  The order is total and
    antisymmetric, so the sorted array does not depend on the algorithm. *)
Definition Array_sort (array : list string) : list string := merge_sort String.le array.

(** One element of the [fileList] literal:
    [...fs.readdirSync(path.join(__dirname, dir)).map(f => `${prefix}${f}`)]. *)
Definition readdirPrefixed (E : Env) (F : FileSystem) (dir prefix : string)
  : Res (list string) :=
  let* files := readdirSync F (path_join E (dirname F) dir) in
  ok (map (fun f => prefix +:+ f) files).

(** The [fileList] literal: its spreads are evaluated from first to last. *)
Fixpoint readdirs (E : Env) (F : FileSystem) (dirs : list (string * string))
  : Res (list string) :=
  match dirs with
  | [] => ok []
  | (dir, prefix) :: rest =>
      let* files := readdirPrefixed E F dir prefix in
      let* more := readdirs E F rest in
      ok (files ++ more)
  end.

(** The [ignoredFiles] of [getAuditList]. *)
Definition ignoredFiles : list string :=
  ["audit.js";
   "violation-audit.js";
   "accessibility/axe-audit.js";
   "multi-check-audit.js";
   "byte-efficiency/byte-efficiency-audit.js";
   "manual/manual-audit.js"].

(** The directories [getAuditList] reads, each with the prefix its files
    get. *)
Definition auditDirs : list (string * string) :=
  [("./audits", "");
   ("./audits/dobetterweb", "dobetterweb/");
   ("./audits/metrics", "metrics/");
   ("./audits/seo", "seo/");
   ("./audits/seo/manual", "seo/manual/");
   ("./audits/accessibility", "accessibility/");
   ("./audits/accessibility/manual", "accessibility/manual/");
   ("./audits/byte-efficiency", "byte-efficiency/");
   ("./audits/manual", "manual/")].

Definition getAuditList (E : Env) (F : FileSystem) : Res (list string) :=
  let* fileList := readdirs E F auditDirs in
  ok (Array_sort (List.filter (fun f => endsWithJs f && negb (Array_includes ignoredFiles f))
                              fileList)).

(** The directories [getGathererList] reads. *)
Definition gathererDirs : list (string * string) :=
  [("./gather/gatherers", "");
   ("./gather/gatherers/seo", "seo/");
   ("./gather/gatherers/dobetterweb", "dobetterweb/")].

Definition getGathererList (E : Env) (F : FileSystem) : Res (list string) :=
  let* fileList := readdirs E F gathererDirs in
  ok (Array_sort (List.filter (fun f => endsWithJs f && negb (String.eqb f "gatherer.js"))
                              fileList)).

(** ** More vocabulary *)

(** The [resultsById] object [run] builds from the audit results. *)
Definition resultsById (auditResults : list Audit.Result) : list (string * Audit.Result) :=
  fold_left (fun resultsById audit => js_set (Audit.id audit) audit resultsById)
            auditResults [].

(** The last result of a list that has a given id. *)
Fixpoint lastWithId (auditId : string) (l : list Audit.Result) : option Audit.Result :=
  match l with
  | [] => None
  | r :: rest =>
      match lastWithId auditId rest with
      | Some r' => Some r'
      | None => if String.eqb (Audit.id r) auditId then Some r else None
      end
  end.

(** The times of a list, each where it occurs first. *)
Fixpoint firstOccurrences (l : list Qc) : list Qc :=
  match l with
  | [] => []
  | t :: rest => t :: List.filter (fun t' => negb (bool_decide (t' = t))) (firstOccurrences rest)
  end.

(** The run is in analyze-only mode. *)
Definition analyzeOnly (settings : Settings) : bool :=
  truthy (setting settings "auditMode") && negb (truthy (setting settings "gatherMode")).

(** The run is in collect-only mode. *)
Definition collectOnly (settings : Settings) : bool :=
  truthy (setting settings "gatherMode") && negb (truthy (setting settings "auditMode")).

(** A stretch of the trace that holds audit invocations only. *)
Definition onlyAuditsInvoked (trace : list Event) : Prop :=
  Forall (fun e => match e with AuditInvoked _ _ _ => True | _ => False end) trace.

(** A file is listed under one of the directories read. *)
Definition listedUnder (E : Env) (F : FileSystem) (dirs : list (string * string))
    (f : string) : Prop :=
  exists dir prefix names stem,
    In (dir, prefix) dirs
    /\ readdirSync F (path_join E (dirname F) dir) = ok names
    /\ In stem names
    /\ f = prefix +:+ stem.

(** A directory tree with two of the audit directories filled. *)
Definition sampleFileSystem : FileSystem :=
  {| dirname := "/lighthouse-core";
     readdirSync := fun dir =>
       if String.eqb dir "/lighthouse-core/./audits"
       then ok ["viewport.js"; "audit.js"; "README.md"; "is-on-https.js"]
       else if String.eqb dir "/lighthouse-core/./audits/seo"
       then ok ["audit.js"; "canonical.js"]
       else if String.eqb dir "/lighthouse-core/./gather/gatherers"
       then ok ["gatherer.js"; "viewport.js"; "fonts.js"]
       else if String.eqb dir "/lighthouse-core/./gather/gatherers/seo"
       then ok ["gatherer.js"; "robots-txt.js"]
       else ok [] |}.

(** * Properties *)

(** ** Runtime error extraction *)

Lemma firstRuntimeError_find (l : list ArtifactValue) :
  firstRuntimeError l = find is_runtime_error l ≫= runtimeErrorOf.
Proof.
  induction l as [|v l IH]; [reflexivity|].
  destruct v as [d|t|s|[m f x|c m f [|]]]; simpl; auto.
Qed.

Lemma find_none_Forall {A} (p : A -> bool) (l : list A) :
  find p l = None <-> Forall (fun x => p x = false) l.
Proof.
  induction l as [|x l IH]; simpl.
  - split; [constructor | reflexivity].
  - destruct (p x) eqn:Hx.
    + split; [discriminate | inversion 1; congruence].
    + rewrite IH. split; [by constructor | by inversion 1].
Qed.

Lemma assoc_Object_values {V} (k : string) (o : list (string * V)) (v : V) :
  assoc k o = Some v -> v ∈ Object_values o.
Proof.
  induction o as [|[k' w] o IH]; simpl; [discriminate|].
  destruct (String.eqb k' k).
  - intros [= ->]. apply list_elem_of_here.
  - intros H. apply list_elem_of_further. auto.
Qed.

Lemma runtimeErrorOf_is_Some (v : ArtifactValue) :
  is_runtime_error v = true -> is_Some (runtimeErrorOf v).
Proof.
  destruct v as [d|t|s|[m f x|c m f [|]]]; simpl; try discriminate. eauto.
Qed.

(** C4, as amended.  The extractor returns the pair of the first runtime
    error (an [LHError] that carries [lhrRuntimeError]) in the list that
    starts with the [PageLoadError] artifact and goes on with every value of
    the artifact set: a [PageLoadError] that is a runtime error wins over all
    others, one that is not (absent or of any other shape) lets the scan go
    on over every value, and the result is none exactly when no value is a
    runtime error. *)
Theorem getArtifactRuntimeError_priority (artifacts : Artifacts) :
  let pageLoadError := js_get "PageLoadError" artifacts in
  getArtifactRuntimeError artifacts
    = find is_runtime_error (pageLoadError :: Object_values artifacts) ≫= runtimeErrorOf
  /\ (is_runtime_error pageLoadError = true ->
      getArtifactRuntimeError artifacts = runtimeErrorOf pageLoadError)
  /\ (is_runtime_error pageLoadError = false ->
      getArtifactRuntimeError artifacts
        = find is_runtime_error (Object_values artifacts) ≫= runtimeErrorOf)
  /\ (getArtifactRuntimeError artifacts = None <->
      Forall (fun v => is_runtime_error v = false) (Object_values artifacts)).
Proof.
  intros pageLoadError. unfold getArtifactRuntimeError. fold pageLoadError.
  rewrite firstRuntimeError_find. repeat split.
  - intros H. simpl. by rewrite H.
  - intros H. simpl. by rewrite H.
  - intros H.
    destruct (find _ _) as [v|] eqn:Hfind.
    + apply find_some in Hfind as [_ Hv].
      apply runtimeErrorOf_is_Some in Hv as [r Hr]. simpl in H. congruence.
    + apply find_none_Forall in Hfind. by inversion Hfind.
  - intros H.
    assert (Hp : is_runtime_error pageLoadError = false).
    { unfold pageLoadError, js_get.
      destruct (assoc "PageLoadError" artifacts) as [v|] eqn:Hv; [|reflexivity].
      rewrite Forall_forall in H. apply H. by eapply assoc_Object_values. }
    assert (Hall : Forall (fun v => is_runtime_error v = false)
                          (pageLoadError :: Object_values artifacts)) by by constructor.
    apply find_none_Forall in Hall. by rewrite Hall.
Qed.

(** C4 does not hold as the specification states it: with a
    [PageLoadError] that is there but is no runtime error, the extractor
    still scans the other values and returns the runtime error it finds
    among them. *)
Lemma getArtifactRuntimeError_scans_past_PageLoadError :
  let artifacts :=
    [("PageLoadError", AError (LHError "NO_TRACING_STARTED" "no trace" None false));
     ("ViewportDimensions", AError (LHError "PROTOCOL_TIMEOUT" "timed out" None true))] in
  is_absent (js_get "PageLoadError" artifacts) = false
  /\ getArtifactRuntimeError artifacts
       = Some {| re_code := "PROTOCOL_TIMEOUT"; re_message := "timed out" |}
  /\ runtimeError_onlyIfAbsent artifacts = None.
Proof. repeat split. Qed.

(** C10.  When the extractor returns a pair, the pair comes from the first
    runtime error of the scan, and its message is that marker's friendly
    message when one is present (a non-empty string, the test [||] makes)
    and the marker's own message otherwise. *)
Theorem getArtifactRuntimeError_message (artifacts : Artifacts) (r : RuntimeError) :
  getArtifactRuntimeError artifacts = Some r ->
  exists code message friendlyMessage,
    find is_runtime_error (js_get "PageLoadError" artifacts :: Object_values artifacts)
      = Some (AError (LHError code message friendlyMessage true))
    /\ re_code r = code
    /\ (forall friendly, friendlyMessage = Some friendly -> friendly <> "" ->
        re_message r = friendly)
    /\ (friendlyMessage = None \/ friendlyMessage = Some "" -> re_message r = message).
Proof.
  unfold getArtifactRuntimeError. rewrite firstRuntimeError_find.
  destruct (find _ _) as [v|] eqn:Hfind; [|discriminate]. simpl.
  destruct v as [d|t|s|[m f x|c m f [|]]]; simpl; try discriminate.
  intros [= <-]. exists c, m, f. simpl. repeat split.
  - intros friendly -> Hne. simpl. destruct friendly; [congruence | reflexivity].
  - intros [-> | ->]; reflexivity.
Qed.

Lemma getArtifactRuntimeError_message_witness :
  exists code message friendlyMessage,
    find is_runtime_error
         (js_get "PageLoadError"
                 [("PageLoadError", AError (LHError "NO_FCP" "raw" (Some "The page did not paint") true))]
          :: Object_values
               [("PageLoadError", AError (LHError "NO_FCP" "raw" (Some "The page did not paint") true))])
      = Some (AError (LHError code message friendlyMessage true))
    /\ re_code {| re_code := "NO_FCP"; re_message := "The page did not paint" |} = code
    /\ (forall friendly, friendlyMessage = Some friendly -> friendly <> "" ->
        re_message {| re_code := "NO_FCP"; re_message := "The page did not paint" |} = friendly)
    /\ (friendlyMessage = None \/ friendlyMessage = Some "" ->
        re_message {| re_code := "NO_FCP"; re_message := "The page did not paint" |} = message).
Proof.
  apply (getArtifactRuntimeError_message
           [("PageLoadError", AError (LHError "NO_FCP" "raw" (Some "The page did not paint") true))]
           {| re_code := "NO_FCP"; re_message := "The page did not paint" |}).
  reflexivity.
Defined.

(** ** Timing aggregation *)

Section MapFacts.
Context {V : Type}.
Implicit Types (m : list (Qc * V)) (k : Qc) (v : V).

Lemma Map_set_keys m k0 v0 k :
  k ∈ map fst (Map_set k0 v0 m) <-> k = k0 \/ k ∈ map fst m.
Proof.
  induction m as [|[k' v'] m IH]; simpl.
  - rewrite list_elem_of_singleton. split; [by left|].
    intros [?|H]; [done | by apply not_elem_of_nil in H].
  - destruct (decide (k' = k0)) as [->|Hne]; simpl; rewrite !elem_of_cons.
    + naive_solver.
    + rewrite IH. naive_solver.
Qed.

Lemma Map_set_NoDup m k0 v0 :
  NoDup (map fst m) -> NoDup (map fst (Map_set k0 v0 m)).
Proof.
  induction m as [|[k' v'] m IH]; simpl; intros Hnd.
  - repeat constructor. apply not_elem_of_nil.
  - apply NoDup_cons in Hnd as [Hk' Hnd].
    destruct (decide (k' = k0)) as [->|Hne]; simpl.
    + by apply NoDup_cons.
    + apply NoDup_cons. split; [|auto].
      rewrite Map_set_keys. intros [?|?]; congruence.
Qed.

Lemma Map_set_elem m k0 v0 k v :
  NoDup (map fst m) ->
  (k, v) ∈ Map_set k0 v0 m <-> (k = k0 /\ v = v0) \/ (k <> k0 /\ (k, v) ∈ m).
Proof.
  induction m as [|[k' v'] m IH]; simpl; intros Hnd.
  - rewrite list_elem_of_singleton. split.
    + intros [= -> ->]. by left.
    + intros [[-> ->]|[_ H]]; [done | by apply not_elem_of_nil in H].
  - apply NoDup_cons in Hnd as [Hk' Hnd].
    destruct (decide (k' = k0)) as [->|Hne]; rewrite !elem_of_cons.
    + split.
      * intros [[= -> ->]|Hin]; [by left|]. right. split; [|by right].
        intros ->. apply Hk'. apply list_elem_of_In, in_map_iff.
        exists (k0, v). split; [done|]. by apply list_elem_of_In.
      * intros [[-> ->]|[Hk [[= ? ?]|Hin]]]; [by left | congruence | by right].
    + rewrite IH by done. split.
      * intros [[= -> ->]|[[-> ->]|[Hk Hin]]]; [right | left | right]; naive_solver.
      * intros [[-> ->]|[Hk [[= -> ->]|Hin]]]; [right; by left | by left | right; by right].
Qed.
End MapFacts.

Lemma lastStartingAt_Some (t : Qc) (l : list PerformanceEntry) (e : PerformanceEntry) :
  lastStartingAt t l = Some e <->
  startTime e = t /\
  exists pre post, l = pre ++ e :: post /\ Forall (fun e' => startTime e' <> t) post.
Proof.
  revert e. induction l as [|e0 l IH]; intros e; simpl.
  - split; [discriminate|]. intros (_ & [|??] & ? & ? & _); discriminate.
  - destruct (lastStartingAt t l) as [e1|] eqn:Hlast.
    + split.
      * intros [= <-]. destruct (proj1 (IH e1) eq_refl) as (Ht & pre & post & -> & Hpost).
        split; [done|]. by exists (e0 :: pre), post.
      * intros (Ht & pre & post & Heq & Hpost).
        destruct pre as [|p pre]; simpl in Heq; injection Heq as -> Heq.
        -- (* [e0] would be the last one, but [e1] comes later *)
           destruct (proj1 (IH e1) eq_refl) as (Ht1 & pre1 & post1 & Heq1 & _).
           rewrite <- Heq, Heq1 in Hpost. rewrite Forall_app, Forall_cons in Hpost.
           by destruct Hpost as (_ & ? & _).
        -- apply IH. split; [done|]. by exists pre, post.
    + assert (Hnone : Forall (fun e' => startTime e' <> t) l).
      { clear IH. induction l as [|e1 l IHl]; [constructor|]. simpl in Hlast.
        destruct (lastStartingAt t l); [discriminate|].
        destruct (decide (startTime e1 = t)); [discriminate|]. constructor; auto. }
      destruct (decide (startTime e0 = t)) as [Ht|Ht].
      * split.
        -- intros [= <-]. split; [done|]. by exists [], l.
        -- intros (Het & pre & post & Heq & Hpost). f_equal.
           destruct pre as [|p pre]; simpl in Heq; injection Heq as -> Heq; [done|].
           rewrite Heq in Hnone. rewrite Forall_app, Forall_cons in Hnone.
           by destruct Hnone as (_ & ? & _).
      * split; [discriminate|].
        intros (Het & pre & post & Heq & Hpost).
        destruct pre as [|p pre]; simpl in Heq; injection Heq as -> Heq; [done|].
        rewrite Heq in Hnone. rewrite Forall_app, Forall_cons in Hnone.
        by destruct Hnone as (_ & ? & _).
Qed.

Lemma new_Map_fold (ts : list PerformanceEntry) (m : list (Qc * PerformanceEntry)) :
  NoDup (map fst m) ->
  let m' := fold_left (fun m kv => Map_set kv.1 kv.2 m)
                      (map (fun entry => (startTime entry, entry)) ts) m in
  NoDup (map fst m') /\
  forall k e, (k, e) ∈ m' <->
              match lastStartingAt k ts with
              | Some e' => e = e'
              | None => (k, e) ∈ m
              end.
Proof.
  revert m. induction ts as [|e0 ts IH]; intros m Hnd; simpl.
  - by split.
  - destruct (IH (Map_set (startTime e0) e0 m)) as [Hnd' Hin];
      [by apply Map_set_NoDup|].
    split; [done|]. intros k e. rewrite Hin.
    destruct (lastStartingAt k ts) as [e1|]; [done|].
    rewrite Map_set_elem by done.
    destruct (decide (startTime e0 = k)) as [<-|Hne]; naive_solver.
Qed.

Lemma dedupedEntries_spec (fromArtifacts fromRunner : list PerformanceEntry) :
  let all := fromArtifacts ++ fromRunner in
  let deduped := dedupedEntries fromArtifacts fromRunner in
  NoDup (map startTime deduped) /\
  forall e, e ∈ deduped <-> lastStartingAt (startTime e) all = Some e.
Proof.
  intros all deduped. unfold deduped, dedupedEntries, new_Map, Map_values. fold all.
  destruct (new_Map_fold all []) as [Hnd Hin]; [constructor|].
  simpl in Hnd, Hin.
  set (m := fold_left _ _ _) in *.
  assert (Hkey : forall k e, (k, e) ∈ m -> lastStartingAt k all = Some e /\ k = startTime e).
  { intros k e H. apply Hin in H. destruct (lastStartingAt k all) as [e'|] eqn:Hl.
    - subst e'. split; [done|]. by apply lastStartingAt_Some in Hl as [-> _].
    - by apply not_elem_of_nil in H. }
  split.
  - replace (map startTime (map snd m)) with (map fst m); [done|].
    rewrite map_map. apply map_ext_in. intros [k e] Hke.
    apply list_elem_of_In in Hke. by apply Hkey in Hke as [_ ->].
  - intros e. split.
    + intros H. apply list_elem_of_In, in_map_iff in H as ([k e'] & <- & Hke).
      apply list_elem_of_In in Hke. by apply Hkey in Hke as [? ->].
    + intros H. apply list_elem_of_In, in_map_iff. exists (startTime e, e).
      split; [done|]. apply list_elem_of_In, Hin. by rewrite H.
Qed.

Lemma toFixed2_rounds (x : Qc) :
  (Qabs (toFixed2 x - x) <= 1 # 200)%Q
  /\ ((Qabs x < 10 ^ 21)%Q -> exists n : Z, (toFixed2 x == n # 100)%Q).
Proof.
  unfold toFixed2.
  destruct (Qle_bool (10 ^ 21) (Qabs x)) eqn:Hbig.
  - split.
    + unfold Qminus. rewrite Qplus_opp_r. discriminate.
    + intros Hlt. apply Qle_bool_iff in Hbig. by apply Qle_not_lt in Hbig.
  - set (n := Qfloor (Qabs x * 100 + (1 # 2))).
    assert (Hlo : (inject_Z n <= Qabs x * 100 + (1 # 2))%Q) by apply Qfloor_le.
    assert (Hhi : (Qabs x * 100 + (1 # 2) < inject_Z n + 1)%Q).
    { pose proof (Qlt_floor (Qabs x * 100 + (1 # 2))) as H.
      fold n in H. by rewrite inject_Z_plus in H. }
    split.
    + unfold Q2Qc; cbn [this]. rewrite Qred_correct, inject_Z_mult.
      apply Qabs_Qle_condition. unfold Qdiv. change (/ 100)%Q with (1 # 100)%Q.
      clearbody n. revert Hlo Hhi. generalize (inject_Z n). intros z Hlo Hhi.
      destruct (Qlt_le_dec x 0) as [Hneg|Hpos].
      * assert (Hs : Z.sgn (Qnum x) = (-1)%Z).
        { destruct x as [[[|p|p] d] c]; unfold Qlt in Hneg; simpl in *; lia. }
        rewrite Hs. rewrite (Qabs_neg x) in Hlo, Hhi by by apply Qlt_le_weak.
        change (inject_Z (-1)) with (-1)%Q. split; lra.
      * rewrite (Qabs_pos x) in Hlo, Hhi by done.
        destruct (Qnum x) as [|p|p] eqn:Hnum.
        -- assert (Hx : (x == 0)%Q).
           { destruct x as [[nx d] c]. simpl in Hnum. subst nx. reflexivity. }
           simpl Z.sgn. change (inject_Z 0) with 0%Q. rewrite Hx. split; lra.
        -- simpl Z.sgn. change (inject_Z 1) with 1%Q. split; lra.
        -- exfalso. destruct x as [[nx d] c]. simpl in Hnum. subst nx.
           unfold Qle in Hpos. simpl in Hpos. lia.
    + intros _. exists (Z.sgn (Qnum x) * n)%Z. unfold Q2Qc; cbn [this]. rewrite Qred_correct.
      unfold Qdiv, Qeq. simpl. lia.
Qed.

Lemma runnerTotal_duration (runnerEntry : option PerformanceEntry) :
  runnerTotal runnerEntry = match runnerEntry with
                            | Some e => duration e
                            | None => 0%Qc
                            end.
Proof.
  destruct runnerEntry as [e|]; [|reflexivity]. simpl.
  destruct (Qeq_bool (duration e) 0) eqn:Hz; [|reflexivity]. simpl.
  apply Qeq_bool_iff in Hz. symmetry. by apply Qc_is_canon.
Qed.

(** C5.  [_getTiming] puts the entries of the artifacts before the runner's
    own, keeps one entry per [startTime], the last one that starts there,
    rounds [startTime] and [duration] of each entry kept to the closest
    hundredth, and gives as total the duration of the entry named
    [lh:runner:run], zero when there is none. *)
Theorem getTiming_aggregates (timingEntriesFromRunner : list PerformanceEntry)
    (artifacts : Artifacts) :
  _getTiming timingEntriesFromRunner artifacts
    = (let* timingEntriesFromArtifacts := artifacts_Timing artifacts in
       ok (aggregateTiming timingEntriesFromArtifacts timingEntriesFromRunner))
  /\ (forall l, js_get "Timing" artifacts = ATiming l -> artifacts_Timing artifacts = ok l)
  /\ (is_absent (js_get "Timing" artifacts) = true -> artifacts_Timing artifacts = ok [])
  /\ (forall timingEntriesFromArtifacts,
      let all := timingEntriesFromArtifacts ++ timingEntriesFromRunner in
      let result := aggregateTiming timingEntriesFromArtifacts timingEntriesFromRunner in
      exists deduped,
        entries result = map truncateEntry deduped
        /\ NoDup (map startTime deduped)
        /\ (forall e, In e deduped <->
                      exists pre post,
                        all = pre ++ e :: post
                        /\ Forall (fun e' => startTime e' <> startTime e) post)
        /\ total result
           = match find (fun e => String.eqb (name e) "lh:runner:run") (entries result) with
             | Some runnerEntry => duration runnerEntry
             | None => 0%Qc
             end)
  /\ (forall e, truncateEntry e
                = {| name := name e; startTime := toFixed2 (startTime e);
                     duration := toFixed2 (duration e); entryType := entryType e |})
  /\ (forall x : Qc,
      (Qabs (toFixed2 x - x) <= 1 # 200)%Q
      /\ ((Qabs x < 10 ^ 21)%Q -> exists n : Z, (toFixed2 x == n # 100)%Q)).
Proof.
  split; [reflexivity|]. split; [|split; [|split; [|split]]].
  - intros l Hl. unfold artifacts_Timing. by rewrite Hl.
  - unfold artifacts_Timing. by destruct (js_get "Timing" artifacts) as [[]| | |].
  - intros from all result.
    destruct (dedupedEntries_spec from timingEntriesFromRunner) as [Hnd Hin].
    exists (dedupedEntries from timingEntriesFromRunner).
    split; [reflexivity|]. split; [done|]. split.
    + intros e. rewrite <- list_elem_of_In, Hin, lastStartingAt_Some. naive_solver.
    + unfold result, aggregateTiming. simpl. apply runnerTotal_duration.
  - reflexivity.
  - apply toFixed2_rounds.
Qed.

(** ** The audit loop *)

Lemma checkRequiredArtifact_ready (artifacts : Artifacts) (artifactName : string) :
  artifactReady artifacts artifactName = true ->
  checkRequiredArtifact artifacts artifactName = ok tt.
Proof.
  unfold artifactReady, checkRequiredArtifact, noDefaultPass.
  destruct (String.eqb artifactName "traces");
    destruct (is_undefined (js_get artifactName artifacts));
    destruct (js_get artifactName artifacts) as [d|t|s|e]; simpl; try discriminate;
    try reflexivity;
    destruct (get_prop (js_get "traces" artifacts) Audit.DEFAULT_PASS) as [err|trace];
    simpl; try discriminate; destruct (truthy trace); simpl; try discriminate; reflexivity.
Qed.

Lemma checkRequiredArtifact_not_ready (artifacts : Artifacts) (artifactName : string) :
  artifactReady artifacts artifactName = false ->
  exists err, checkRequiredArtifact artifacts artifactName = throw err.
Proof.
  unfold artifactReady, checkRequiredArtifact, noDefaultPass.
  destruct (String.eqb artifactName "traces");
    destruct (is_undefined (js_get artifactName artifacts));
    destruct (js_get artifactName artifacts) as [d|t|s|e]; simpl; try discriminate;
    eauto;
    destruct (get_prop (js_get "traces" artifacts) Audit.DEFAULT_PASS) as [err|trace];
    simpl; eauto; destruct (truthy trace); simpl; try discriminate; eauto.
Qed.

Lemma checkRequiredArtifacts_ready (artifacts : Artifacts) (names : list string) :
  checkRequiredArtifacts artifacts names = ok tt <->
  Forall (fun k => artifactReady artifacts k = true) names.
Proof.
  induction names as [|k names IH]; simpl.
  - split; [constructor | reflexivity].
  - destruct (artifactReady artifacts k) eqn:Hk.
    + rewrite (checkRequiredArtifact_ready _ _ Hk). simpl. rewrite IH.
      split; [by constructor | by inversion 1].
    + destruct (checkRequiredArtifact_not_ready _ _ Hk) as [err ->]. simpl.
      split; [discriminate | inversion 1; congruence].
Qed.

Lemma checkRequiredArtifacts_result (artifacts : Artifacts) (names : list string) :
  checkRequiredArtifacts artifacts names = ok tt
  \/ exists err, checkRequiredArtifacts artifacts names = throw err.
Proof.
  destruct (checkRequiredArtifacts artifacts names) as [err|[]]; eauto.
Qed.

(** An audit whose required artifacts fail the check is not invoked: its
    result is the error result of what the check threw, and the shared
    context and the trace stay as they were. *)
Lemma runAudit_check_failed (auditDefn : AuditDefn) (artifacts : Artifacts)
    (sharedAuditContext : SharedAuditContext) (trace : list Event) (err : JSError) :
  checkRequiredArtifacts artifacts (requiredArtifacts (meta (implementation auditDefn)))
    = throw err ->
  _runAudit auditDefn artifacts sharedAuditContext trace
    = (Audit.generateErrorAuditResult (implementation auditDefn)
         (or_else (err_friendlyMessage err) (err_message err)),
       sharedAuditContext, trace).
Proof.
  intros H. unfold _runAudit, tryAudit. by rewrite H.
Qed.

(** An audit whose required artifacts pass the check is invoked once, on the
    artifacts picked for it. *)
Lemma runAudit_check_passed (auditDefn : AuditDefn) (artifacts : Artifacts)
    (sharedAuditContext : SharedAuditContext) (trace : list Event) :
  checkRequiredArtifacts artifacts (requiredArtifacts (meta (implementation auditDefn)))
    = ok tt ->
  let audit_ := implementation auditDefn in
  let view := pickRequiredArtifacts (requiredArtifacts (meta audit_)) artifacts in
  let context :=
    {| options := Object_assign (defaultOptions audit_) (default ∅ (defn_options auditDefn));
       shared := sharedAuditContext |} in
  _runAudit auditDefn artifacts sharedAuditContext trace
    = (match (audit audit_ view context).1 with
       | inr product => Audit.generateAuditResult audit_ product
       | inl err => Audit.generateErrorAuditResult audit_
                      (or_else (err_friendlyMessage err) (err_message err))
       end,
       (audit audit_ view context).2,
       trace ++ [AuditInvoked (id (meta audit_)) view context]).
Proof.
  intros H audit_ view context. unfold _runAudit, tryAudit. rewrite H.
  fold audit_ view context.
  destruct (audit audit_ view context) as [[err|product] sharedAfter]; reflexivity.
Qed.

Lemma runAudit_id (auditDefn : AuditDefn) (artifacts : Artifacts)
    (sharedAuditContext : SharedAuditContext) (trace : list Event) :
  Audit.id (_runAudit auditDefn artifacts sharedAuditContext trace).1.1
    = id (meta (implementation auditDefn)).
Proof.
  destruct (checkRequiredArtifacts_result artifacts
              (requiredArtifacts (meta (implementation auditDefn)))) as [H|[err H]].
  - rewrite (runAudit_check_passed _ _ _ _ H). simpl.
    by destruct (audit _ _ _).1.
  - by rewrite (runAudit_check_failed _ _ _ _ _ H).
Qed.

Lemma runAuditsLoop_app (before after : list AuditDefn) (artifacts : Artifacts)
    (sharedAuditContext : SharedAuditContext) (trace : list Event) :
  runAuditsLoop (before ++ after) artifacts sharedAuditContext trace
    = (let '(results1, shared1, trace1) :=
         runAuditsLoop before artifacts sharedAuditContext trace in
       let '(results2, shared2, trace2) :=
         runAuditsLoop after artifacts shared1 trace1 in
       (results1 ++ results2, shared2, trace2)).
Proof.
  revert sharedAuditContext trace.
  induction before as [|auditDefn before IH]; intros sharedAuditContext trace; simpl.
  - by destruct (runAuditsLoop after artifacts sharedAuditContext trace) as [[? ?] ?].
  - destruct (_runAudit auditDefn artifacts sharedAuditContext trace)
      as [[result shared1] trace1].
    rewrite IH.
    destruct (runAuditsLoop before artifacts shared1 trace1) as [[results1 shared2] trace2].
    by destruct (runAuditsLoop after artifacts shared2 trace2) as [[? ?] ?].
Qed.

Lemma runAuditsLoop_ids (audits : list AuditDefn) (artifacts : Artifacts)
    (sharedAuditContext : SharedAuditContext) (trace : list Event) :
  map Audit.id (runAuditsLoop audits artifacts sharedAuditContext trace).1.1
    = map (fun auditDefn => id (meta (implementation auditDefn))) audits.
Proof.
  revert sharedAuditContext trace.
  induction audits as [|auditDefn audits IH]; intros sharedAuditContext trace; simpl;
    [reflexivity|].
  pose proof (runAudit_id auditDefn artifacts sharedAuditContext trace) as Hid.
  destruct (_runAudit auditDefn artifacts sharedAuditContext trace)
    as [[result shared1] trace1].
  specialize (IH shared1 trace1).
  destruct (runAuditsLoop audits artifacts shared1 trace1) as [[results shared2] trace2].
  simpl in *. by rewrite Hid, IH.
Qed.

(** The audit phase runs to completion exactly when the settings guard at
    its head lets it. *)
Lemma runAudits_completes (settings : Settings) (audits : list AuditDefn)
    (artifacts : Artifacts) (runWarnings : list string) (trace : list Event) :
  checkSettings settings artifacts = ok tt ->
  _runAudits settings audits artifacts runWarnings trace
    = (let '(results, sharedAfter, trace') :=
         runAuditsLoop audits artifacts
           {| settings := settings; LighthouseRunWarnings := runWarnings;
              computedCache := ∅ |} trace in
       (ok (results, LighthouseRunWarnings sharedAfter), trace')).
Proof.
  intros H. unfold _runAudits, mbind, lift. by rewrite H.
Qed.

Lemma runAudits_rejects (settings : Settings) (audits : list AuditDefn)
    (artifacts : Artifacts) (runWarnings : list string) (trace : list Event)
    (err : JSError) :
  checkSettings settings artifacts = throw err ->
  _runAudits settings audits artifacts runWarnings trace = (throw err, trace).
Proof.
  intros H. unfold _runAudits, mbind, lift. by rewrite H.
Qed.

Lemma runAudits_completes_iff (settings : Settings) (audits : list AuditDefn)
    (artifacts : Artifacts) (runWarnings : list string) (trace : list Event) :
  (exists results trace',
     _runAudits settings audits artifacts runWarnings trace = (ok results, trace'))
  <-> checkSettings settings artifacts = ok tt.
Proof.
  split.
  - intros (results & trace' & H).
    destruct (checkSettings settings artifacts) as [err|[]] eqn:Hguard; [|reflexivity].
    rewrite (runAudits_rejects _ _ _ _ _ _ Hguard) in H. discriminate.
  - intros Hguard. rewrite (runAudits_completes _ _ _ _ _ Hguard).
    destruct (runAuditsLoop _ _ _ _) as [[results sharedAfter] trace']. eauto.
Qed.

(** C1.  When the audit phase runs to completion, which it does exactly when
    the settings guard at its head passes ([runAudits_completes_iff]), there
    are as many results as audit definitions, and the result at each position
    has the id of the definition at that position. *)
Theorem runAudits_one_result_per_audit (settings : Settings) (audits : list AuditDefn)
    (artifacts : Artifacts) (runWarnings : list string) (trace : list Event) :
  checkSettings settings artifacts = ok tt ->
  exists results warnings trace',
    _runAudits settings audits artifacts runWarnings trace = (ok (results, warnings), trace')
    /\ length results = length audits
    /\ forall i auditDefn,
         audits !! i = Some auditDefn ->
         exists result,
           results !! i = Some result
           /\ Audit.id result = id (meta (implementation auditDefn)).
Proof.
  intros Hguard. rewrite (runAudits_completes _ _ _ _ _ Hguard).
  pose proof (runAuditsLoop_ids audits artifacts
                {| settings := settings; LighthouseRunWarnings := runWarnings;
                   computedCache := ∅ |} trace) as Hids.
  destruct (runAuditsLoop _ _ _ _) as [[results sharedAfter] trace'].
  simpl in Hids. exists results, (LighthouseRunWarnings sharedAfter), trace'.
  split; [reflexivity|].
  assert (Hlen : length results = length audits).
  { rewrite <- (length_map Audit.id results), Hids. apply length_map. }
  split; [done|]. intros i auditDefn Hi.
  destruct (results !! i) as [result|] eqn:Hr.
  - exists result. split; [done|].
    change (Audit.id <$> results
            = (fun d => id (meta (implementation d))) <$> audits) in Hids.
    apply (f_equal (.!! i)) in Hids. rewrite !list_lookup_fmap, Hr, Hi in Hids.
    by injection Hids.
  - apply lookup_ge_None in Hr. apply lookup_lt_Some in Hi. lia.
Qed.

Lemma runAudits_one_result_per_audit_witness :
  exists results warnings trace',
    _runAudits analyzeSettings sampleAudits sampleArtifacts [] []
      = (ok (results, warnings), trace')
    /\ length results = length sampleAudits
    /\ forall i auditDefn,
         sampleAudits !! i = Some auditDefn ->
         exists result,
           results !! i = Some result
           /\ Audit.id result = id (meta (implementation auditDefn)).
Proof.
  apply (runAudits_one_result_per_audit analyzeSettings sampleAudits sampleArtifacts [] []).
  vm_compute. reflexivity.
Defined.

(** ** The artifacts an audit is handed *)

Section ObjectFacts.
Context {V : Type}.
Implicit Types (o : list (string * V)) (k : string) (v : V).

Lemma assoc_js_set o k0 v0 k :
  assoc k (js_set k0 v0 o) = if String.eqb k0 k then Some v0 else assoc k o.
Proof.
  induction o as [|[k' v'] o IH]; simpl; [reflexivity|].
  destruct (String.eqb_spec k' k0) as [->|Hne]; simpl.
  - by destruct (String.eqb k0 k).
  - rewrite IH. destruct (String.eqb_spec k' k) as [->|Hne']; [|reflexivity].
    destruct (String.eqb_spec k0 k) as [->|_]; [congruence | reflexivity].
Qed.

Lemma js_set_keys o k0 v0 k :
  In k (map fst (js_set k0 v0 o)) <-> k = k0 \/ In k (map fst o).
Proof.
  induction o as [|[k' v'] o IH]; simpl; [naive_solver|].
  destruct (String.eqb_spec k' k0) as [->|Hne]; simpl; [naive_solver|].
  rewrite IH. naive_solver.
Qed.

Lemma js_set_NoDup o k0 v0 :
  NoDup (map fst o) -> NoDup (map fst (js_set k0 v0 o)).
Proof.
  induction o as [|[k' v'] o IH]; simpl; intros Hnd.
  - repeat constructor. apply not_elem_of_nil.
  - apply NoDup_cons in Hnd as [Hk' Hnd].
    destruct (String.eqb_spec k' k0) as [->|Hne]; simpl; apply NoDup_cons.
    + done.
    + split; [|auto]. rewrite list_elem_of_In, js_set_keys, <- list_elem_of_In.
      naive_solver.
Qed.
End ObjectFacts.

Lemma pickRequiredArtifacts_fold (names : list string) (artifacts acc : Artifacts) :
  let view := fold_left (fun requiredArtifacts artifactName =>
                           js_set artifactName (js_get artifactName artifacts)
                                  requiredArtifacts) names acc in
  (NoDup (map fst acc) -> NoDup (map fst view))
  /\ (forall k, In k (map fst view) <-> In k names \/ In k (map fst acc))
  /\ (forall k, In k names -> assoc k view = Some (js_get k artifacts))
  /\ (forall k, ~ In k names -> assoc k view = assoc k acc).
Proof.
  revert acc. induction names as [|n names IH]; intros acc; simpl.
  - naive_solver.
  - destruct (IH (js_set n (js_get n artifacts) acc)) as (Hnd & Hkeys & Hin & Hout).
    split; [|split; [|split]].
    + intros H. by apply Hnd, js_set_NoDup.
    + intros k. rewrite Hkeys, js_set_keys. naive_solver.
    + intros k [->|Hk].
      * destruct (in_dec String.string_dec k names) as [Hk|Hk]; [by apply Hin|].
        rewrite (Hout _ Hk), assoc_js_set. by rewrite String.eqb_refl.
      * by apply Hin.
    + intros k Hk. rewrite Hout by naive_solver. rewrite assoc_js_set.
      destruct (String.eqb_spec n k) as [->|_]; [naive_solver | reflexivity].
Qed.

(** The object handed to an audit has the names the audit requires as its
    keys, each once, each with the value the artifacts have for it, and no
    other key. *)
Lemma pickRequiredArtifacts_spec (names : list string) (artifacts : Artifacts) :
  let view := pickRequiredArtifacts names artifacts in
  NoDup (map fst view)
  /\ (forall k, In k (map fst view) <-> In k names)
  /\ (forall k, In k names -> assoc k view = Some (js_get k artifacts))
  /\ (forall k, ~ In k names -> assoc k view = None).
Proof.
  destruct (pickRequiredArtifacts_fold names artifacts []) as (Hnd & Hkeys & Hin & Hout).
  split; [apply Hnd; constructor|]. split; [|by split].
  intros k. rewrite Hkeys. simpl. naive_solver.
Qed.

Lemma artifactReady_present (artifacts : Artifacts) (k : string) :
  artifactReady artifacts k = true ->
  assoc k artifacts = Some (js_get k artifacts)
  /\ is_undefined (js_get k artifacts) = false
  /\ instanceof_Error (js_get k artifacts) = false.
Proof.
  unfold artifactReady, js_get.
  destruct (assoc k artifacts) as [v|]; simpl; [|discriminate].
  destruct (is_undefined v), (instanceof_Error v); simpl;
    rewrite ?andb_false_r; try discriminate; done.
Qed.

(** C9.  An audit whose required artifacts are all there ([traces] with its
    default pass) and free of errors has its scoring logic invoked, once, with
    an object whose keys are the names the audit declares in
    [requiredArtifacts], each with the value the artifact set has for it, and
    nothing else. *)
Theorem audit_receives_required_artifacts (auditDefn : AuditDefn) (artifacts : Artifacts)
    (sharedAuditContext : SharedAuditContext) (trace : list Event) :
  Forall (fun k => artifactReady artifacts k = true)
         (requiredArtifacts (meta (implementation auditDefn))) ->
  let audit_ := implementation auditDefn in
  let required := requiredArtifacts (meta audit_) in
  exists view context,
    (_runAudit auditDefn artifacts sharedAuditContext trace).2
      = trace ++ [AuditInvoked (id (meta audit_)) view context]
    /\ (_runAudit auditDefn artifacts sharedAuditContext trace).1
       = (match (audit audit_ view context).1 with
          | inr product => Audit.generateAuditResult audit_ product
          | inl err => Audit.generateErrorAuditResult audit_
                         (or_else (err_friendlyMessage err) (err_message err))
          end,
          (audit audit_ view context).2)
    /\ NoDup (map fst view)
    /\ (forall k, In k (map fst view) <-> In k required)
    /\ (forall k, In k required ->
                  exists v, assoc k artifacts = Some v /\ assoc k view = Some v)
    /\ (forall k, ~ In k required -> assoc k view = None).
Proof.
  intros Hready audit_ required.
  apply checkRequiredArtifacts_ready in Hready as Hcheck.
  rewrite (runAudit_check_passed _ _ _ _ Hcheck). fold audit_ required.
  destruct (pickRequiredArtifacts_spec required artifacts) as (Hnd & Hkeys & Hin & Hout).
  eexists _, _. split; [reflexivity|]. split; [reflexivity|].
  split; [done|]. split; [done|]. split; [|done].
  intros k Hk. exists (js_get k artifacts). split; [|by apply Hin].
  rewrite Forall_forall in Hready. apply artifactReady_present, Hready.
  by apply list_elem_of_In.
Qed.

Lemma audit_receives_required_artifacts_witness :
  let auditDefn := sampleDefn "first-meaningful-paint" ["traces"; "Viewport"] in
  exists view context,
    (_runAudit auditDefn sampleArtifacts (mkShared analyzeSettings [] ∅) []).2
      = [] ++ [AuditInvoked "first-meaningful-paint" view context]
    /\ (_runAudit auditDefn sampleArtifacts (mkShared analyzeSettings [] ∅) []).1
       = (match (audit (implementation auditDefn) view context).1 with
          | inr product => Audit.generateAuditResult (implementation auditDefn) product
          | inl err => Audit.generateErrorAuditResult (implementation auditDefn)
                         (or_else (err_friendlyMessage err) (err_message err))
          end,
          (audit (implementation auditDefn) view context).2)
    /\ NoDup (map fst view)
    /\ (forall k, In k (map fst view) <-> In k ["traces"; "Viewport"])
    /\ (forall k, In k ["traces"; "Viewport"] ->
                  exists v, assoc k sampleArtifacts = Some v /\ assoc k view = Some v)
    /\ (forall k, ~ In k ["traces"; "Viewport"] -> assoc k view = None).
Proof.
  apply (audit_receives_required_artifacts
           (sampleDefn "first-meaningful-paint" ["traces"; "Viewport"])
           sampleArtifacts (mkShared analyzeSettings [] ∅) []).
  repeat constructor.
Defined.

(** ** Audit-level failures *)

Lemma prefix_append (s t : string) : String.prefix s (s +:+ t) = true.
Proof.
  induction s as [|c s IH]; simpl; [by destruct t|].
  destruct (ascii_dec c c); [done | congruence].
Qed.

Lemma includes_append (before sub : string) : includes (before +:+ sub) sub = true.
Proof.
  induction before as [|c before IH].
  - simpl. assert (H : String.prefix sub sub = true).
    { clear. induction sub as [|c sub IH]; simpl; [done|].
      destruct (ascii_dec c c); [done | congruence]. }
    destruct sub; simpl in *; by rewrite ?H.
  - change (includes (String c before +:+ sub) sub)
      with (if String.prefix sub (String c (before +:+ sub)) then true
            else includes (before +:+ sub) sub).
    rewrite IH. by destruct (String.prefix sub (String c (before +:+ sub))).
Qed.

(** [_runAudit] reads the artifacts only under the names the audit requires. *)
Lemma checkRequiredArtifact_ext (artifacts artifacts' : Artifacts) (k : string) :
  js_get k artifacts' = js_get k artifacts ->
  checkRequiredArtifact artifacts' k = checkRequiredArtifact artifacts k.
Proof.
  intros Hk. unfold checkRequiredArtifact. rewrite Hk.
  destruct (String.eqb_spec k "traces") as [->|_]; [by rewrite Hk | reflexivity].
Qed.

Lemma checkRequiredArtifacts_ext (artifacts artifacts' : Artifacts) (names : list string) :
  (forall k, In k names -> js_get k artifacts' = js_get k artifacts) ->
  checkRequiredArtifacts artifacts' names = checkRequiredArtifacts artifacts names.
Proof.
  induction names as [|k names IH]; intros Hsame; simpl; [reflexivity|].
  rewrite (checkRequiredArtifact_ext artifacts artifacts' k) by (apply Hsame; by left).
  rewrite IH; [reflexivity|]. intros k' Hk'. apply Hsame. by right.
Qed.

Lemma pickRequiredArtifacts_ext (artifacts artifacts' : Artifacts) (names : list string) :
  (forall k, In k names -> js_get k artifacts' = js_get k artifacts) ->
  pickRequiredArtifacts names artifacts' = pickRequiredArtifacts names artifacts.
Proof.
  unfold pickRequiredArtifacts. generalize (@nil (string * ArtifactValue)).
  induction names as [|k names IH]; intros acc Hsame; simpl; [reflexivity|].
  rewrite (Hsame k) by (by left). apply IH. intros k' Hk'. apply Hsame. by right.
Qed.

Lemma runAudit_ext (auditDefn : AuditDefn) (artifacts artifacts' : Artifacts)
    (sharedAuditContext : SharedAuditContext) (trace : list Event) :
  (forall k, In k (requiredArtifacts (meta (implementation auditDefn))) ->
             js_get k artifacts' = js_get k artifacts) ->
  _runAudit auditDefn artifacts' sharedAuditContext trace
    = _runAudit auditDefn artifacts sharedAuditContext trace.
Proof.
  intros Hsame. unfold _runAudit, tryAudit.
  by rewrite (checkRequiredArtifacts_ext _ _ _ Hsame),
             (pickRequiredArtifacts_ext _ _ _ Hsame).
Qed.

(** An audit that is not invoked leaves the loop as it found it: the audits
    around it give what they give without it. *)
Lemma runAuditsLoop_skip (before after : list AuditDefn) (auditDefn : AuditDefn)
    (artifacts : Artifacts) (sharedAuditContext : SharedAuditContext)
    (trace : list Event) (err : JSError) :
  checkRequiredArtifacts artifacts (requiredArtifacts (meta (implementation auditDefn)))
    = throw err ->
  exists results1 results2 sharedAfter trace',
    runAuditsLoop (before ++ auditDefn :: after) artifacts sharedAuditContext trace
      = (results1
           ++ Audit.generateErrorAuditResult (implementation auditDefn)
                (or_else (err_friendlyMessage err) (err_message err))
           :: results2,
         sharedAfter, trace')
    /\ runAuditsLoop (before ++ after) artifacts sharedAuditContext trace
       = (results1 ++ results2, sharedAfter, trace')
    /\ length results1 = length before
    /\ length results2 = length after.
Proof.
  intros Hcheck. rewrite !runAuditsLoop_app. simpl.
  pose proof (runAuditsLoop_ids before artifacts sharedAuditContext trace) as Hids1.
  destruct (runAuditsLoop before artifacts sharedAuditContext trace)
    as [[results1 shared1] trace1].
  rewrite (runAudit_check_failed _ _ _ _ _ Hcheck).
  pose proof (runAuditsLoop_ids after artifacts shared1 trace1) as Hids2.
  destruct (runAuditsLoop after artifacts shared1 trace1) as [[results2 shared2] trace2].
  exists results1, results2, shared2, trace2. repeat split.
  - apply (f_equal length) in Hids1. by rewrite !length_map in Hids1.
  - apply (f_equal length) in Hids2. by rewrite !length_map in Hids2.
Qed.

(** C2.  An audit that requires an artifact the artifact set does not have
    (or [traces] without its default pass) gets an error result; the audit
    phase still completes, and the other audits get the results they get
    when the failing audit is not configured at all. *)
Theorem missing_artifact_is_audit_level_failure (settings : Settings)
    (before after : list AuditDefn) (auditDefn : AuditDefn) (artifacts : Artifacts)
    (runWarnings : list string) (trace : list Event) (artifactName : string) :
  In artifactName (requiredArtifacts (meta (implementation auditDefn))) ->
  is_undefined (js_get artifactName artifacts) = true
  \/ (artifactName = "traces" /\ noDefaultPass artifacts = true) ->
  checkSettings settings artifacts = ok tt ->
  exists errorResult results1 results2 warnings trace',
    isErrorResult errorResult
    /\ Audit.id errorResult = id (meta (implementation auditDefn))
    /\ (forall sharedAuditContext trace0,
          _runAudit auditDefn artifacts sharedAuditContext trace0
            = (errorResult, sharedAuditContext, trace0))
    /\ _runAudits settings (before ++ auditDefn :: after) artifacts runWarnings trace
       = (ok (results1 ++ errorResult :: results2, warnings), trace')
    /\ _runAudits settings (before ++ after) artifacts runWarnings trace
       = (ok (results1 ++ results2, warnings), trace')
    /\ length results1 = length before
    /\ length results2 = length after.
Proof.
  intros Hin Hmissing Hguard.
  assert (Hnot : artifactReady artifacts artifactName = false).
  { unfold artifactReady. destruct Hmissing as [->|[-> ->]]; [done|].
    simpl. by rewrite andb_false_r. }
  destruct (checkRequiredArtifacts_result artifacts
              (requiredArtifacts (meta (implementation auditDefn)))) as [Hok|[err Herr]].
  { apply checkRequiredArtifacts_ready in Hok. rewrite Forall_forall in Hok.
    apply list_elem_of_In, Hok in Hin. congruence. }
  destruct (runAuditsLoop_skip before after auditDefn artifacts
              {| settings := settings; LighthouseRunWarnings := runWarnings;
                 computedCache := ∅ |} trace err Herr)
    as (results1 & results2 & sharedAfter & trace' & Hwith & Hwithout & Hlen1 & Hlen2).
  exists (Audit.generateErrorAuditResult (implementation auditDefn)
            (or_else (err_friendlyMessage err) (err_message err))),
         results1, results2, (LighthouseRunWarnings sharedAfter), trace'.
  split; [|split; [|split; [|split; [|split]]]].
  - unfold isErrorResult. simpl. by eexists.
  - reflexivity.
  - intros sharedAuditContext trace0. by apply runAudit_check_failed.
  - rewrite (runAudits_completes _ _ _ _ _ Hguard). by rewrite Hwith.
  - rewrite (runAudits_completes _ _ _ _ _ Hguard). by rewrite Hwithout.
  - done.
Qed.

Lemma missing_artifact_is_audit_level_failure_witness :
  let auditDefn := sampleDefn "webfonts" ["Viewport"; "WebFonts"] in
  exists errorResult results1 results2 warnings trace',
    isErrorResult errorResult
    /\ Audit.id errorResult = "webfonts"
    /\ (forall sharedAuditContext trace0,
          _runAudit auditDefn sampleArtifacts sharedAuditContext trace0
            = (errorResult, sharedAuditContext, trace0))
    /\ _runAudits analyzeSettings ([sampleDefn "viewport" ["Viewport"]] ++ auditDefn
                                   :: [sampleDefn "first-meaningful-paint" ["traces"]])
         sampleArtifacts [] []
       = (ok (results1 ++ errorResult :: results2, warnings), trace')
    /\ _runAudits analyzeSettings ([sampleDefn "viewport" ["Viewport"]]
                                   ++ [sampleDefn "first-meaningful-paint" ["traces"]])
         sampleArtifacts [] []
       = (ok (results1 ++ results2, warnings), trace')
    /\ length results1 = length [sampleDefn "viewport" ["Viewport"]]
    /\ length results2 = length [sampleDefn "first-meaningful-paint" ["traces"]].
Proof.
  apply (missing_artifact_is_audit_level_failure analyzeSettings
           [sampleDefn "viewport" ["Viewport"]]
           [sampleDefn "first-meaningful-paint" ["traces"]]
           (sampleDefn "webfonts" ["Viewport"; "WebFonts"])
           sampleArtifacts [] [] "WebFonts").
  - simpl. auto.
  - left. reflexivity.
  - vm_compute. reflexivity.
Defined.

(** C3 does not hold as the specification states it: the loop over the
    required artifacts throws at the first name that fails, so an error
    marker further down the list never gets its message into the result. *)
Lemma error_marker_behind_missing_artifact :
  let auditDefn := sampleDefn "font-display" ["WebFonts"; "Fonts"] in
  let result :=
    (_runAudit auditDefn sampleArtifacts (mkShared analyzeSettings [] ∅) []).1.1 in
  In "Fonts" (requiredArtifacts (meta (implementation auditDefn)))
  /\ js_get "Fonts" sampleArtifacts
     = AError (PlainError "timed out" None false)
  /\ Audit.errorMessage result = Some "Required WebFonts gatherer did not run."
  /\ includes "Required WebFonts gatherer did not run." "timed out" = false.
Proof. simpl. repeat split. auto. Qed.

Lemma append_assoc (a b c : string) : (a +:+ b) +:+ c = a +:+ b +:+ c.
Proof.
  induction a as [|x a IH]; [reflexivity|].
  change (String x ((a +:+ b) +:+ c) = String x (a +:+ b +:+ c)). by rewrite IH.
Qed.

(** C3, as amended.  When the first of an audit's required artifacts to fail
    the check holds an error marker (and is not [traces], whose default-pass
    check comes first), the audit's result is an error result whose message
    ends with the marker's message; the scoring logic is not invoked and the
    loop goes on to the next audit with the shared context as it was; and an
    audit that does not require that artifact, run on the same shared context,
    gives what it gives when the artifact is no error. *)
Theorem error_artifact_is_audit_level_failure (auditDefn : AuditDefn)
    (artifacts : Artifacts) (sharedAuditContext : SharedAuditContext)
    (trace : list Event) (before after : list string) (artifactName : string)
    (artifactError : JSError) :
  requiredArtifacts (meta (implementation auditDefn)) = before ++ artifactName :: after ->
  Forall (fun k => artifactReady artifacts k = true) before ->
  js_get artifactName artifacts = AError artifactError ->
  artifactName <> "traces" ->
  let message := "Required " +:+ artifactName +:+ " gatherer encountered an error: "
                 +:+ err_message artifactError in
  let errorResult := Audit.generateErrorAuditResult (implementation auditDefn) message in
  _runAudit auditDefn artifacts sharedAuditContext trace
    = (errorResult, sharedAuditContext, trace)
  /\ isErrorResult errorResult
  /\ Audit.errorMessage errorResult = Some message
  /\ includes message (err_message artifactError) = true
  /\ (forall rest,
        runAuditsLoop (auditDefn :: rest) artifacts sharedAuditContext trace
          = (let '(results, sharedAfter, trace') :=
               runAuditsLoop rest artifacts sharedAuditContext trace in
             (errorResult :: results, sharedAfter, trace')))
  /\ (forall other artifacts' shared0 trace0,
        ~ In artifactName (requiredArtifacts (meta (implementation other))) ->
        (forall k, k <> artifactName -> js_get k artifacts' = js_get k artifacts) ->
        _runAudit other artifacts' shared0 trace0
          = _runAudit other artifacts shared0 trace0).
Proof.
  intros Hreq Hbefore Hget Hne message errorResult.
  assert (Hone : checkRequiredArtifact artifacts artifactName
                 = throw (set_expected (new_Error message))).
  { unfold checkRequiredArtifact. rewrite Hget. simpl.
    by destruct (String.eqb_spec artifactName "traces"). }
  assert (Hcheck : checkRequiredArtifacts artifacts
                     (requiredArtifacts (meta (implementation auditDefn)))
                   = throw (set_expected (new_Error message))).
  { rewrite Hreq. clear Hreq. induction Hbefore as [|k before Hk _ IH]; simpl.
    - by rewrite Hone.
    - by rewrite (checkRequiredArtifact_ready _ _ Hk). }
  assert (Hrun : forall shared0 trace0,
             _runAudit auditDefn artifacts shared0 trace0 = (errorResult, shared0, trace0)).
  { intros shared0 trace0. by rewrite (runAudit_check_failed _ _ _ _ _ Hcheck). }
  split; [apply Hrun|]. split; [by eexists|]. split; [reflexivity|]. split; [|split].
  - unfold message. rewrite <- !append_assoc. apply includes_append.
  - intros rest. simpl. rewrite Hrun.
    by destruct (runAuditsLoop rest artifacts sharedAuditContext trace) as [[? ?] ?].
  - intros other artifacts' shared0 trace0 Hnot Hsame. apply runAudit_ext.
    intros k Hk. apply Hsame. by intros ->.
Qed.

Lemma error_artifact_is_audit_level_failure_witness :
  let auditDefn := sampleDefn "font-display" ["Viewport"; "Fonts"; "URL"] in
  let message := "Required Fonts gatherer encountered an error: timed out" in
  let errorResult := Audit.generateErrorAuditResult (implementation auditDefn) message in
  _runAudit auditDefn sampleArtifacts (mkShared analyzeSettings [] ∅) []
    = (errorResult, mkShared analyzeSettings [] ∅, [])
  /\ isErrorResult errorResult
  /\ Audit.errorMessage errorResult = Some message
  /\ includes message "timed out" = true
  /\ (forall rest,
        runAuditsLoop (auditDefn :: rest) sampleArtifacts (mkShared analyzeSettings [] ∅) []
          = (let '(results, sharedAfter, trace') :=
               runAuditsLoop rest sampleArtifacts (mkShared analyzeSettings [] ∅) [] in
             (errorResult :: results, sharedAfter, trace')))
  /\ (forall other artifacts' shared0 trace0,
        ~ In "Fonts" (requiredArtifacts (meta (implementation other))) ->
        (forall k, k <> "Fonts" -> js_get k artifacts' = js_get k sampleArtifacts) ->
        _runAudit other artifacts' shared0 trace0
          = _runAudit other sampleArtifacts shared0 trace0).
Proof.
  apply (error_artifact_is_audit_level_failure
           (sampleDefn "font-display" ["Viewport"; "Fonts"; "URL"])
           sampleArtifacts (mkShared analyzeSettings [] ∅) []
           ["Viewport"] ["URL"] "Fonts" (PlainError "timed out" None false)).
  - reflexivity.
  - repeat constructor.
  - reflexivity.
  - discriminate.
Defined.

(** ** Settings compatibility *)

Lemma excludedFields_dec (k : string) :
  {In k excludedFields} + {~ In k excludedFields}.
Proof. apply in_dec, String.string_dec. Defined.

Lemma lookup_normalized (s : Settings) (k : string) :
  Object_assign s overrides !! k
    = if excludedFields_dec k then Some DUndefined else s !! k.
Proof.
  unfold Object_assign, overrides. rewrite lookup_union.
  destruct (excludedFields_dec k) as [Hin|Hout].
  - simpl in Hin.
    destruct Hin as [<-|[<-|[<-|[<-|[<-|[]]]]]]; by destruct (s !! _).
  - rewrite !lookup_insert_ne, lookup_empty; [by destruct (s !! k)|..];
      intros <-; apply Hout; simpl; tauto.
Qed.

Lemma lookup_excludeFields (s : Settings) (k : string) :
  excludeFields s !! k = if excludedFields_dec k then None else s !! k.
Proof.
  unfold excludeFields. simpl.
  destruct (excludedFields_dec k) as [Hin|Hout].
  - simpl in Hin. rewrite !lookup_delete.
    destruct Hin as [<-|[<-|[<-|[<-|[<-|[]]]]]]; repeat case_decide; congruence.
  - rewrite !lookup_delete_ne; [done|..]; intros <-; apply Hout; simpl; tauto.
Qed.

(** The comparison [_runAudits] makes is the comparison of the settings with
    the excluded fields left out. *)
Lemma isDeepEqual_normalized (a b : Settings) :
  isDeepEqual (Object_assign a overrides) (Object_assign b overrides) = true
  <-> compatible a b.
Proof.
  unfold isDeepEqual, compatible. rewrite bool_decide_eq_true. split; intros H.
  - apply map_eq. intros k. rewrite !lookup_excludeFields.
    destruct (excludedFields_dec k) as [Hin|Hout] eqn:Hdec; [done|].
    apply (f_equal (.!! k)) in H. by rewrite !lookup_normalized, Hdec in H.
  - apply map_eq. intros k. rewrite !lookup_normalized.
    destruct (excludedFields_dec k) as [Hin|Hout] eqn:Hdec; [done|].
    apply (f_equal (.!! k)) in H. by rewrite !lookup_excludeFields, Hdec in H.
Qed.

Lemma checkSettings_compatible (settings gatherSettings : Settings)
    (artifacts : Artifacts) :
  artifacts_settings artifacts = Some gatherSettings ->
  (compatible gatherSettings settings -> checkSettings settings artifacts = ok tt)
  /\ (~ compatible gatherSettings settings ->
      checkSettings settings artifacts
        = throw (new_Error "Cannot change settings between gathering and auditing")).
Proof.
  intros Hs. unfold checkSettings. rewrite Hs.
  pose proof (isDeepEqual_normalized gatherSettings settings) as Heq.
  destruct (isDeepEqual _ _); simpl; split; intros H; try done.
  - exfalso. apply H, Heq. reflexivity.
  - apply Heq in H. discriminate.
Qed.

(** C6 does not hold as the specification states it: the guard is not
    tied to the analyze-only path.  A run with neither [gatherMode] nor
    [auditMode] whose gather runner hands back artifacts that embed other
    settings stops at the guard too. *)
Lemma settings_guard_outside_analyze_only :
  let runOpts := {| config := sampleConfig fullRunSettings;
                    url := Some "https://example.com/" |} in
  truthy (setting fullRunSettings "auditMode") = false
  /\ run staleGatherEnv runOpts []
     = (throw (new_Error "Cannot change settings between gathering and auditing"),
        [Gathered ["defaultPass"] "https://example.com/"]).
Proof. split; [reflexivity|]. vm_compute. reflexivity. Qed.

(** C6, as amended.  The guard stands at the head of the audit phase, which
    every run that audits goes through, whatever its mode: it is made whenever
    the artifacts embed settings, it passes exactly when those settings and
    the current ones are equal once [locale], [gatherMode], [auditMode],
    [output] and [budgets] are left out, and when it fails the audit phase
    and the run throw before any audit is invoked. *)
Theorem settings_guard_heads_audit_phase (settings : Settings) (artifacts : Artifacts) :
  (artifacts_settings artifacts = None -> checkSettings settings artifacts = ok tt)
  /\ (forall gatherSettings,
        artifacts_settings artifacts = Some gatherSettings ->
        (checkSettings settings artifacts = ok tt <-> compatible gatherSettings settings))
  /\ (forall a b, compatible a b <->
                  forall k, ~ In k excludedFields -> a !! k = b !! k)
  /\ (forall gatherSettings audits runWarnings trace,
        artifacts_settings artifacts = Some gatherSettings ->
        ~ compatible gatherSettings settings ->
        _runAudits settings audits artifacts runWarnings trace
          = (throw (new_Error "Cannot change settings between gathering and auditing"),
             trace))
  /\ (forall E runOpts requestedUrl gatherSettings auditDefns trace,
        config_settings (config runOpts) = settings ->
        audits (config runOpts) = Some auditDefns ->
        artifacts_settings artifacts = Some gatherSettings ->
        ~ compatible gatherSettings settings ->
        auditPhase E runOpts artifacts requestedUrl trace
          = (throw (new_Error "Cannot change settings between gathering and auditing"),
             trace))
  /\ (forall E runOpts trace,
        config_settings (config runOpts) = settings ->
        run E runOpts trace
          = match gatherPhase E runOpts trace with
            | (inl err, trace') => (throw err, trace')
            | (inr (gathered, requestedUrl), trace') =>
                if truthy (setting settings "gatherMode")
                   && negb (truthy (setting settings "auditMode"))
                then (ok None, trace')
                else auditPhase E runOpts gathered requestedUrl trace'
            end).
Proof.
  split; [|split; [|split; [|split; [|split]]]].
  - intros H. unfold checkSettings. by rewrite H.
  - intros g Hg. destruct (checkSettings_compatible settings g artifacts Hg) as [Hyes Hno].
    split; [|done]. intros Hok.
    destruct (decide (excludeFields g = excludeFields settings)) as [|Hne]; [done|].
    rewrite (Hno Hne) in Hok. discriminate.
  - intros a b. unfold compatible. split.
    + intros H k Hk. apply (f_equal (.!! k)) in H. rewrite !lookup_excludeFields in H.
      by destruct (excludedFields_dec k).
    + intros H. apply map_eq. intros k. rewrite !lookup_excludeFields.
      destruct (excludedFields_dec k); [done | by apply H].
  - intros g auditDefns runWarnings trace Hg Hne. apply runAudits_rejects.
    by apply (checkSettings_compatible settings g artifacts Hg).
  - intros E runOpts requestedUrl g auditDefns trace Hs Ha Hg Hne.
    unfold auditPhase. rewrite Ha, Hs. unfold mbind at 1.
    rewrite (runAudits_rejects settings auditDefns artifacts [] trace
               (new_Error "Cannot change settings between gathering and auditing"));
      [reflexivity|].
    by apply (checkSettings_compatible settings g artifacts Hg).
  - intros E runOpts trace Hs. unfold run, mbind. rewrite Hs.
    destruct (gatherPhase E runOpts trace) as [[err|[gathered requestedUrl]] trace'];
      [reflexivity|].
    by destruct (truthy (setting settings "gatherMode")
                 && negb (truthy (setting settings "auditMode"))).
Qed.

(** ** The phases of a run *)

Lemma run_after_gatherPhase (E : Env) (runOpts : RunOpts) (trace trace' : list Event)
    (gathered : Artifacts) (requestedUrl : Data) :
  gatherPhase E runOpts trace = (ok (gathered, requestedUrl), trace') ->
  run E runOpts trace
    = if truthy (setting (config_settings (config runOpts)) "gatherMode")
         && negb (truthy (setting (config_settings (config runOpts)) "auditMode"))
      then (ok None, trace')
      else auditPhase E runOpts gathered requestedUrl trace'.
Proof.
  intros H. unfold run, mbind. rewrite H.
  by destruct (truthy _ && negb _).
Qed.

Lemma run_gatherPhase_throws (E : Env) (runOpts : RunOpts) (trace trace' : list Event)
    (err : JSError) :
  gatherPhase E runOpts trace = (throw err, trace') ->
  run E runOpts trace = (throw err, trace').
Proof. intros H. unfold run, mbind. by rewrite H. Qed.

(** C7.  In analyze-only mode the run throws, with no audit invoked, when
    the loaded artifacts have no requested URL, and when a URL is supplied
    that is not the persisted one once fragments are left out; a supplied URL
    that is the persisted one but for its fragment passes, and the run goes on
    to the audit phase with the loaded artifacts and the persisted URL. *)
Theorem analyze_only_url_check (E : Env) (runOpts : RunOpts) (loaded : Artifacts)
    (trace : list Event) :
  let settings := config_settings (config runOpts) in
  let path := _getArtifactsPath E settings in
  let persistedUrl := get_prop (js_get "URL" loaded) "requestedUrl" in
  truthy (setting settings "auditMode") = true ->
  truthy (setting settings "gatherMode") = false ->
  loadArtifacts E path = ok loaded ->
  (forall err, persistedUrl = throw err ->
     run E runOpts trace = (throw err, trace ++ [ArtifactsLoaded path]))
  /\ (forall persisted, persistedUrl = ok persisted -> truthy persisted = false ->
        run E runOpts trace
          = (throw (new_Error "Cannot run audit mode on empty URL"),
             trace ++ [ArtifactsLoaded path]))
  /\ (forall persisted supplied,
        persistedUrl = ok (DStr persisted) -> str_truthy persisted = true ->
        url runOpts = Some supplied -> str_truthy supplied = true ->
        equalWithExcludedFragments (URL_href E) supplied persisted = false ->
        run E runOpts trace
          = (throw (new_Error "Cannot run audit mode on different URL"),
             trace ++ [ArtifactsLoaded path]))
  /\ (forall persisted supplied,
        persistedUrl = ok (DStr persisted) -> str_truthy persisted = true ->
        url runOpts = Some supplied ->
        equalWithExcludedFragments (URL_href E) supplied persisted = true ->
        gatherPhase E runOpts trace
          = (ok (loaded, DStr persisted), trace ++ [ArtifactsLoaded path])
        /\ run E runOpts trace
           = auditPhase E runOpts loaded (DStr persisted) (trace ++ [ArtifactsLoaded path]))
  /\ noAuditInvoked [ArtifactsLoaded path].
Proof.
  intros settings path persistedUrl Haudit Hgather Hload.
  assert (Hphase : gatherPhase E runOpts trace
            = match persistedUrl with
              | inl err => (throw err, trace ++ [ArtifactsLoaded path])
              | inr requestedUrl =>
                  if negb (truthy requestedUrl)
                  then (throw (new_Error "Cannot run audit mode on empty URL"),
                        trace ++ [ArtifactsLoaded path])
                  else
                    match url runOpts, requestedUrl with
                    | Some url, DStr requestedUrl_ =>
                        if str_truthy url
                           && negb (equalWithExcludedFragments (URL_href E) url requestedUrl_)
                        then (throw (new_Error "Cannot run audit mode on different URL"),
                              trace ++ [ArtifactsLoaded path])
                        else (ok (loaded, requestedUrl), trace ++ [ArtifactsLoaded path])
                    | Some url, _ =>
                        if str_truthy url
                        then (throw (new_Error "Cannot run audit mode on different URL"),
                              trace ++ [ArtifactsLoaded path])
                        else (ok (loaded, requestedUrl), trace ++ [ArtifactsLoaded path])
                    | None, _ => (ok (loaded, requestedUrl), trace ++ [ArtifactsLoaded path])
                    end
              end).
  { unfold gatherPhase. fold settings. rewrite Haudit, Hgather.
    cbn [andb negb]. fold path. unfold mbind, emit, lift. rewrite Hload.
    unfold persistedUrl, ok, throw, raise, ret.
    destruct (get_prop (js_get "URL" loaded) "requestedUrl") as [err|requestedUrl];
      [reflexivity|].
    destruct (truthy requestedUrl); cbn [negb]; [|reflexivity].
    destruct (url runOpts) as [u|]; [|by destruct requestedUrl].
    destruct requestedUrl; try (by destruct (str_truthy u)).
    by destruct (str_truthy u && negb _). }
  assert (Hmode : truthy (setting settings "gatherMode")
                  && negb (truthy (setting settings "auditMode")) = false)
    by by rewrite Hgather.
  split; [|split; [|split; [|split]]].
  - intros err Herr. apply run_gatherPhase_throws. by rewrite Hphase, Herr.
  - intros persisted Hp Hempty. apply run_gatherPhase_throws.
    rewrite Hphase, Hp. unfold ok. by rewrite Hempty.
  - intros persisted supplied Hp Htruthy Hurl Hsupplied Hdiff.
    apply run_gatherPhase_throws. rewrite Hphase, Hp. unfold ok. cbn [truthy].
    by rewrite Htruthy, Hurl, Hsupplied, Hdiff.
  - intros persisted supplied Hp Htruthy Hurl Hsame.
    assert (Hg : gatherPhase E runOpts trace
                 = (ok (loaded, DStr persisted), trace ++ [ArtifactsLoaded path])).
    { rewrite Hphase, Hp. unfold ok. cbn [truthy]. rewrite Htruthy, Hurl, Hsame.
      cbn [negb]. by rewrite andb_false_r. }
    split; [done|]. rewrite (run_after_gatherPhase _ _ _ _ _ _ Hg).
    fold settings. by rewrite Hmode.
  - by repeat constructor.
Qed.

Lemma analyze_only_url_check_witness :
  gatherPhase sampleEnv {| config := sampleConfig analyzeSettings;
                           url := Some "https://example.com/#frag" |} []
    = (ok (sampleArtifacts, DStr "https://example.com/"),
       [ArtifactsLoaded "/home/user/latest-run"])
  /\ run sampleEnv {| config := sampleConfig analyzeSettings;
                      url := Some "https://other.com/" |} []
     = (throw (new_Error "Cannot run audit mode on different URL"),
        [ArtifactsLoaded "/home/user/latest-run"]).
Proof.
  split.
  - destruct (analyze_only_url_check sampleEnv
                {| config := sampleConfig analyzeSettings;
                   url := Some "https://example.com/#frag" |}
                sampleArtifacts [] eq_refl eq_refl eq_refl)
      as (_ & _ & _ & Hsame & _).
    exact (proj1 (Hsame "https://example.com/" "https://example.com/#frag"
                        eq_refl eq_refl eq_refl eq_refl)).
  - destruct (analyze_only_url_check sampleEnv
                {| config := sampleConfig analyzeSettings;
                   url := Some "https://other.com/" |}
                sampleArtifacts [] eq_refl eq_refl eq_refl)
      as (_ & _ & Hdiff & _).
    exact (Hdiff "https://example.com/" "https://other.com/"
                 eq_refl eq_refl eq_refl eq_refl eq_refl).
Defined.

(** C8 does not hold as the specification states it: with no passes
    configured the collect-only run throws before anything is gathered,
    valid URL or not. *)
Lemma collect_only_without_passes :
  let runOpts := {| config := auditsOnlyConfig gatherSettings;
                    url := Some "https://example.com/" |} in
  truthy (setting gatherSettings "gatherMode") = true
  /\ truthy (setting gatherSettings "auditMode") = false
  /\ URL_href sampleEnv "https://example.com/" = Some "https://example.com/"
  /\ run sampleEnv runOpts []
     = (throw (new_Error "No browser artifacts are either provided or requested."), []).
Proof. repeat split. Qed.

(** C8, as amended.  A collect-only run with a valid URL, passes configured,
    a gather runner that returns and an asset saver that saves, returns
    [undefined] after it has gathered for the canonical URL and saved what
    was gathered at the artifacts path; it invokes no audit. *)
Theorem collect_only_run (E : Env) (runOpts : RunOpts) (supplied href : string)
    (passes_ : list string) (collected : Artifacts) (trace : list Event) :
  let settings := config_settings (config runOpts) in
  let path := _getArtifactsPath E settings in
  truthy (setting settings "gatherMode") = true ->
  truthy (setting settings "auditMode") = false ->
  url runOpts = Some supplied ->
  str_truthy supplied = true ->
  URL_href E supplied = Some href ->
  passes (config runOpts) = Some passes_ ->
  GatherRunner_run E passes_ {| requestedUrl := href; gather_settings := settings |}
    = ok collected ->
  saveArtifacts E collected path = ok tt ->
  run E runOpts trace
    = (ok None, trace ++ [Gathered passes_ href; ArtifactsSaved collected path])
  /\ noAuditInvoked [Gathered passes_ href; ArtifactsSaved collected path]
  /\ (recordsRequestedUrl E ->
      get_prop (js_get "URL" collected) "requestedUrl" = ok (DStr href))
  /\ (forall override,
        setting settings "gatherMode" = DStr override ->
        (forall other, setting settings "auditMode" <> DStr other) ->
        path = path_resolve E (cwd E) override)
  /\ ((forall override, setting settings "gatherMode" <> DStr override) ->
      (forall other, setting settings "auditMode" <> DStr other) ->
      path = path_join E (cwd E) "latest-run").
Proof.
  intros settings path Hgather Haudit Hurl Hsupplied Hhref Hpasses Hrun Hsave.
  split; [|split; [|split; [|split]]].
  - assert (Hphase : gatherPhase E runOpts trace
              = (ok (collected, DStr href),
                 trace ++ [Gathered passes_ href; ArtifactsSaved collected path])).
    { unfold gatherPhase. fold settings. rewrite Haudit, Hurl. simpl.
      destruct supplied as [|c supplied]; [discriminate|].
      rewrite Hhref. unfold _gatherArtifactsFromBrowser. rewrite Hpasses.
      unfold mbind, emit, lift, ret, ok. fold settings. rewrite Hrun, Hgather.
      unfold ok. fold path. rewrite Hsave. unfold ok. by rewrite <- app_assoc. }
    rewrite (run_after_gatherPhase _ _ _ _ _ _ Hphase). fold settings.
    by rewrite Hgather, Haudit.
  - by repeat constructor.
  - intros Hcontract. by apply (Hcontract _ _ _ Hrun).
  - intros override Hg Ha. unfold path, _getArtifactsPath. fold settings. rewrite Hg.
    destruct (setting settings "auditMode") eqn:Hmode; try reflexivity.
    by destruct (Ha s).
  - intros Hg Ha. unfold path, _getArtifactsPath. fold settings.
    destruct (setting settings "auditMode") eqn:Hmode;
      try (by destruct (Ha s));
      destruct (setting settings "gatherMode") eqn:Hmode'; try reflexivity;
      by destruct (Hg s).
Qed.

Lemma collect_only_run_witness :
  let collected :=
    [("URL", AData (DObj [("requestedUrl", DStr "https://example.com/");
                          ("finalUrl", DStr "https://example.com/")]));
     ("settings", ASettings gatherSettings)] in
  run sampleEnv {| config := sampleConfig gatherSettings;
                   url := Some "https://example.com/" |} []
    = (ok None, [Gathered ["defaultPass"] "https://example.com/";
                 ArtifactsSaved collected "/home/user/latest-run"]).
Proof.
  exact (proj1 (collect_only_run sampleEnv
                  {| config := sampleConfig gatherSettings;
                     url := Some "https://example.com/" |}
                  "https://example.com/" "https://example.com/" ["defaultPass"]
                  [("URL", AData (DObj [("requestedUrl", DStr "https://example.com/");
                                        ("finalUrl", DStr "https://example.com/")]));
                   ("settings", ASettings gatherSettings)]
                  [] eq_refl eq_refl eq_refl eq_refl eq_refl eq_refl eq_refl eq_refl)).
Defined.

(** ** Order of invocation and options *)

Lemma invokedIds_app (t1 t2 : list Event) :
  invokedIds (t1 ++ t2) = invokedIds t1 ++ invokedIds t2.
Proof.
  induction t1 as [|e t1 IH]; [reflexivity|].
  destruct e; simpl; rewrite IH; reflexivity.
Qed.

Lemma auditReady_check (artifacts : Artifacts) (auditDefn : AuditDefn) :
  auditReady artifacts auditDefn = true <->
  checkRequiredArtifacts artifacts (requiredArtifacts (meta (implementation auditDefn)))
    = ok tt.
Proof.
  unfold auditReady. rewrite checkRequiredArtifacts_ready, forallb_forall, Forall_forall.
  split; intros H k Hk; apply H; by apply list_elem_of_In.
Qed.

(** X1.  The loop invokes the scoring logic of the audits whose required
    artifacts pass the check, each once and in the configured order, and of
    no other; it leaves no other event behind. *)
Theorem audits_invoked_in_configured_order (auditDefns : list AuditDefn)
    (artifacts : Artifacts) (sharedAuditContext : SharedAuditContext)
    (trace : list Event) :
  exists invocations,
    (runAuditsLoop auditDefns artifacts sharedAuditContext trace).2 = trace ++ invocations
    /\ length invocations = length (invokedIds invocations)
    /\ invokedIds invocations
       = map (fun auditDefn => id (meta (implementation auditDefn)))
             (List.filter (auditReady artifacts) auditDefns).
Proof.
  revert sharedAuditContext trace.
  induction auditDefns as [|auditDefn auditDefns IH]; intros sharedAuditContext trace.
  - exists []. simpl. by rewrite app_nil_r.
  - cbn [runAuditsLoop List.filter].
    destruct (auditReady artifacts auditDefn) eqn:Hready.
    + pose proof (proj1 (auditReady_check _ _) Hready) as Hcheck.
      rewrite (runAudit_check_passed _ _ _ _ Hcheck).
      set (view := pickRequiredArtifacts _ _). set (context := mkContext _ _).
      set (invoked := AuditInvoked _ view context).
      destruct (IH (audit (implementation auditDefn) view context).2 (trace ++ [invoked]))
        as (invocations & Htrace & Hlen & Hids).
      destruct (runAuditsLoop auditDefns artifacts _ (trace ++ [invoked]))
        as [[results shared2] trace2].
      simpl in *. exists (invoked :: invocations). split; [|split].
      * by rewrite Htrace, <- app_assoc.
      * unfold invoked. simpl. by rewrite Hlen.
      * unfold invoked. simpl. by rewrite Hids.
    + destruct (checkRequiredArtifacts_result artifacts
                  (requiredArtifacts (meta (implementation auditDefn)))) as [Hok|[err Herr]].
      { apply auditReady_check in Hok. congruence. }
      rewrite (runAudit_check_failed _ _ _ _ _ Herr).
      destruct (IH sharedAuditContext trace) as (invocations & Htrace & Hlen & Hids).
      destruct (runAuditsLoop auditDefns artifacts sharedAuditContext trace)
        as [[results shared2] trace2].
      simpl in *. by exists invocations.
Qed.

(** X2.  The options an audit is invoked with are its default options
    overridden, key by key, by the options of its definition. *)
Theorem audit_options_override_defaults (auditDefn : AuditDefn) (artifacts : Artifacts)
    (sharedAuditContext : SharedAuditContext) (trace : list Event) :
  auditReady artifacts auditDefn = true ->
  exists view context,
    (_runAudit auditDefn artifacts sharedAuditContext trace).2
      = trace ++ [AuditInvoked (id (meta (implementation auditDefn))) view context]
    /\ shared context = sharedAuditContext
    /\ forall key,
         options context !! key
           = match defn_options auditDefn ≫= (.!! key) with
             | Some value => Some value
             | None => defaultOptions (implementation auditDefn) !! key
             end.
Proof.
  intros Hready. apply auditReady_check in Hready.
  rewrite (runAudit_check_passed _ _ _ _ Hready).
  eexists _, _. split; [reflexivity|]. split; [reflexivity|].
  intros key. simpl. unfold Object_assign. rewrite lookup_union.
  destruct (defn_options auditDefn) as [o|]; simpl.
  - destruct (o !! key), (defaultOptions (implementation auditDefn) !! key); reflexivity.
  - rewrite lookup_empty. by destruct (defaultOptions (implementation auditDefn) !! key).
Qed.

Lemma audit_options_override_defaults_witness :
  let auditDefn :=
    {| implementation :=
         {| meta := {| id := "uses-long-cache-ttl"; title := "Cache policy";
                       requiredArtifacts := ["URL"] |};
            defaultOptions :=
              <["cacheTtl" := DNum 1%Qc]> (<["ignoreCase" := DBool true]> ∅);
            audit := audit (sampleAudit "uses-long-cache-ttl" ["URL"]) |};
       defn_options := Some (<["cacheTtl" := DNum 0%Qc]> ∅) |} in
  exists view context,
    (_runAudit auditDefn sampleArtifacts (mkShared analyzeSettings [] ∅) []).2
      = [] ++ [AuditInvoked "uses-long-cache-ttl" view context]
    /\ shared context = mkShared analyzeSettings [] ∅
    /\ forall key,
         options context !! key
           = match defn_options auditDefn ≫= (.!! key) with
             | Some value => Some value
             | None => defaultOptions (implementation auditDefn) !! key
             end.
Proof.
  intros auditDefn.
  apply (audit_options_override_defaults auditDefn sampleArtifacts
           (mkShared analyzeSettings [] ∅) []).
  reflexivity.
Defined.

(** ** Listings of audits and gatherers *)

Lemma endsWithJs_cons (c : ascii) (f : string) :
  endsWithJs (String c f)
    = if String.eqb (String c f) ".js" then true else endsWithJs f.
Proof. reflexivity. Qed.

Lemma endsWithJs_spec (f : string) :
  endsWithJs f = true <-> exists stem, f = stem +:+ ".js".
Proof.
  split.
  - induction f as [|c f IH]; [discriminate|].
    rewrite endsWithJs_cons.
    destruct (String.eqb_spec (String c f) ".js") as [->|Hne].
    + intros _. by exists "".
    + intros H. destruct (IH H) as [stem ->]. by exists (String c stem).
  - intros [stem ->]. induction stem as [|c stem IH]; [reflexivity|].
    change (String c stem +:+ ".js") with (String c (stem +:+ ".js")).
    rewrite endsWithJs_cons, IH. by destruct (String.eqb _ _).
Qed.

Lemma Array_includes_In (list : list string) (f : string) :
  Array_includes list f = true <-> In f list.
Proof.
  unfold Array_includes. rewrite existsb_exists. split.
  - intros (x & Hx & Heq). apply String.eqb_eq in Heq. by subst.
  - intros H. exists f. split; [done|]. apply String.eqb_refl.
Qed.

Lemma readdirs_ok (E : Env) (F : FileSystem) (dirs : list (string * string))
    (fileList : list string) :
  readdirs E F dirs = ok fileList ->
  forall f, In f fileList <-> listedUnder E F dirs f.
Proof.
  revert fileList. induction dirs as [|[dir prefix] dirs IH]; intros fileList; simpl.
  - intros [= <-] f. split; [done|]. by intros (? & ? & ? & ? & [] & _).
  - unfold readdirPrefixed.
    destruct (readdirSync F (path_join E (dirname F) dir)) as [err|names] eqn:Hdir;
      [discriminate|]. simpl.
    destruct (readdirs E F dirs) as [err|more] eqn:Hmore; [discriminate|]. simpl.
    intros [= <-] f. rewrite in_app_iff, in_map_iff, (IH more eq_refl). split.
    + intros [(stem & <- & Hstem)|(d & p & ns & stem & Hin & Hns & Hstem & ->)].
      * exists dir, prefix, names, stem. simpl. auto.
      * exists d, p, ns, stem. simpl. auto.
    + intros (d & p & ns & stem & [[= <- <-]|Hin] & Hns & Hstem & ->).
      * left. exists stem. split; [done|]. rewrite Hdir in Hns. by injection Hns as ->.
      * right. by exists d, p, ns, stem.
Qed.

Lemma readdirs_throws (E : Env) (F : FileSystem) (dirs : list (string * string))
    (err : JSError) :
  readdirs E F dirs = throw err ->
  exists dir prefix,
    In (dir, prefix) dirs /\ readdirSync F (path_join E (dirname F) dir) = throw err.
Proof.
  induction dirs as [|[dir prefix] dirs IH]; simpl; [discriminate|].
  unfold readdirPrefixed.
  destruct (readdirSync F (path_join E (dirname F) dir)) as [err'|names] eqn:Hdir; simpl.
  - intros [= ->]. exists dir, prefix. auto.
  - destruct (readdirs E F dirs) as [err'|more]; simpl; [|discriminate].
    intros [= ->]. destruct (IH eq_refl) as (d & p & Hin & Hd). exists d, p. auto.
Qed.

Lemma readdirs_total (E : Env) (F : FileSystem) (dirs : list (string * string)) :
  (forall dir prefix, In (dir, prefix) dirs ->
     exists names, readdirSync F (path_join E (dirname F) dir) = ok names) ->
  exists fileList, readdirs E F dirs = ok fileList.
Proof.
  intros Hall. destruct (readdirs E F dirs) as [err|fileList] eqn:H; [|eauto].
  destruct (readdirs_throws _ _ _ _ H) as (dir & prefix & Hin & Hthrow).
  destruct (Hall _ _ Hin) as [names Hnames]. rewrite Hnames in Hthrow. discriminate.
Qed.

(** Sorting a filtered list of names. *)
Lemma Array_sort_filter (keep : string -> bool) (fileList : list string) :
  let result := Array_sort (List.filter keep fileList) in
  StronglySorted String.le result
  /\ result ≡ₚ List.filter keep fileList
  /\ (forall f, In f result <-> In f fileList /\ keep f = true)
  /\ (forall other, other ≡ₚ List.filter keep fileList -> Sorted String.le other ->
                    other = result).
Proof.
  intros result. unfold result, Array_sort.
  pose proof (merge_sort_Permutation String.le (List.filter keep fileList)) as Hperm.
  split; [apply StronglySorted_merge_sort; apply _|]. split; [done|]. split.
  - intros f. rewrite <- filter_In, <- !list_elem_of_In. by rewrite Hperm.
  - intros other Hother Hsorted. apply (Sorted_unique String.le); [done| |].
    + apply Sorted_merge_sort. apply _.
    + by rewrite Hperm.
Qed.

(** X3.  [getAuditList] throws only what [readdirSync] throws for one of its
    directories; when the nine directories can be read it returns, in
    ascending order, the names (with the prefix of their directory) that end
    with [.js] and are not among the ignored files, as often as they are
    listed, and nothing else. *)
Theorem getAuditList_lists_audits (E : Env) (F : FileSystem) :
  (forall err, getAuditList E F = throw err ->
     exists dir prefix,
       In (dir, prefix) auditDirs
       /\ readdirSync F (path_join E (dirname F) dir) = throw err)
  /\ ((forall dir prefix, In (dir, prefix) auditDirs ->
         exists names, readdirSync F (path_join E (dirname F) dir) = ok names) ->
      exists result, getAuditList E F = ok result)
  /\ (forall result, getAuditList E F = ok result ->
      StronglySorted String.le result
      /\ (forall f, In f result <->
                    listedUnder E F auditDirs f
                    /\ (exists stem, f = stem +:+ ".js")
                    /\ ~ In f ignoredFiles)
      /\ exists fileList,
           readdirs E F auditDirs = ok fileList
           /\ result ≡ₚ List.filter (fun f => endsWithJs f
                                              && negb (Array_includes ignoredFiles f))
                                    fileList
           /\ forall other,
                other ≡ₚ result -> Sorted String.le other -> other = result).
Proof.
  unfold getAuditList. split; [|split].
  - intros err H. destruct (readdirs E F auditDirs) as [err'|fileList] eqn:Hread;
      [|discriminate].
    injection H as ->. by apply readdirs_throws.
  - intros Hall. destruct (readdirs_total E F auditDirs Hall) as [fileList ->].
    simpl. eauto.
  - intros result H. destruct (readdirs E F auditDirs) as [err'|fileList] eqn:Hread;
      [discriminate|].
    injection H as <-.
    destruct (Array_sort_filter
                (fun f => endsWithJs f && negb (Array_includes ignoredFiles f)) fileList)
      as (Hsorted & Hperm & Hin & Hunique).
    split; [done|]. split.
    + intros f. rewrite Hin, (readdirs_ok _ _ _ _ Hread f), andb_true_iff,
        negb_true_iff, endsWithJs_spec, <- not_true_iff_false, Array_includes_In.
      tauto.
    + exists fileList. split; [done|]. split; [done|].
      intros other Hother. apply Hunique. by rewrite Hother.
Qed.

Lemma getAuditList_lists_audits_witness :
  StronglySorted String.le
    ["is-on-https.js"; "seo/audit.js"; "seo/canonical.js"; "viewport.js"]
  /\ (forall f, In f ["is-on-https.js"; "seo/audit.js"; "seo/canonical.js"; "viewport.js"]
                <-> listedUnder sampleEnv sampleFileSystem auditDirs f
                    /\ (exists stem, f = stem +:+ ".js")
                    /\ ~ In f ignoredFiles).
Proof.
  destruct (proj2 (proj2 (getAuditList_lists_audits sampleEnv sampleFileSystem))
              ["is-on-https.js"; "seo/audit.js"; "seo/canonical.js"; "viewport.js"])
    as (Hsorted & Hin & _).
  - vm_compute. reflexivity.
  - exact (conj Hsorted Hin).
Defined.

(** X4.  [getGathererList] throws only what [readdirSync] throws for one of
    its directories; when the three directories can be read it returns,
    in ascending order, the names (with the prefix of their directory) that
    end with [.js] and are not [gatherer.js] itself, as often as they are
    listed, and nothing else. *)
Theorem getGathererList_lists_gatherers (E : Env) (F : FileSystem) :
  (forall err, getGathererList E F = throw err ->
     exists dir prefix,
       In (dir, prefix) gathererDirs
       /\ readdirSync F (path_join E (dirname F) dir) = throw err)
  /\ ((forall dir prefix, In (dir, prefix) gathererDirs ->
         exists names, readdirSync F (path_join E (dirname F) dir) = ok names) ->
      exists result, getGathererList E F = ok result)
  /\ (forall result, getGathererList E F = ok result ->
      StronglySorted String.le result
      /\ (forall f, In f result <->
                    listedUnder E F gathererDirs f
                    /\ (exists stem, f = stem +:+ ".js")
                    /\ f <> "gatherer.js")
      /\ exists fileList,
           readdirs E F gathererDirs = ok fileList
           /\ result ≡ₚ List.filter (fun f => endsWithJs f
                                              && negb (String.eqb f "gatherer.js"))
                                    fileList
           /\ forall other,
                other ≡ₚ result -> Sorted String.le other -> other = result).
Proof.
  unfold getGathererList. split; [|split].
  - intros err H. destruct (readdirs E F gathererDirs) as [err'|fileList] eqn:Hread;
      [|discriminate].
    injection H as ->. by apply readdirs_throws.
  - intros Hall. destruct (readdirs_total E F gathererDirs Hall) as [fileList ->].
    simpl. eauto.
  - intros result H. destruct (readdirs E F gathererDirs) as [err'|fileList] eqn:Hread;
      [discriminate|].
    injection H as <-.
    destruct (Array_sort_filter
                (fun f => endsWithJs f && negb (String.eqb f "gatherer.js")) fileList)
      as (Hsorted & Hperm & Hin & Hunique).
    split; [done|]. split.
    + intros f. rewrite Hin, (readdirs_ok _ _ _ _ Hread f), andb_true_iff,
        negb_true_iff, endsWithJs_spec, String.eqb_neq.
      tauto.
    + exists fileList. split; [done|]. split; [done|].
      intros other Hother. apply Hunique. by rewrite Hother.
Qed.

Lemma getGathererList_lists_gatherers_witness :
  StronglySorted String.le
    ["fonts.js"; "seo/gatherer.js"; "seo/robots-txt.js"; "viewport.js"]
  /\ (forall f, In f ["fonts.js"; "seo/gatherer.js"; "seo/robots-txt.js"; "viewport.js"]
                <-> listedUnder sampleEnv sampleFileSystem gathererDirs f
                    /\ (exists stem, f = stem +:+ ".js")
                    /\ f <> "gatherer.js").
Proof.
  destruct (proj2 (proj2 (getGathererList_lists_gatherers sampleEnv sampleFileSystem))
              ["fonts.js"; "seo/gatherer.js"; "seo/robots-txt.js"; "viewport.js"])
    as (Hsorted & Hin & _).
  - vm_compute. reflexivity.
  - exact (conj Hsorted Hin).
Defined.

(** ** The gather phase, case by case *)

Lemma gatherPhase_gathering (E : Env) (runOpts : RunOpts) (trace : list Event) :
  let settings := config_settings (config runOpts) in
  let path := _getArtifactsPath E settings in
  analyzeOnly settings = false ->
  gatherPhase E runOpts trace
    = match url runOpts with
      | Some (String _ _ as supplied) =>
          match URL_href E supplied with
          | None =>
              (throw (new_Error "The url provided should have a proper protocol and hostname."),
               trace)
          | Some href =>
              match passes (config runOpts) with
              | None =>
                  (throw (new_Error "No browser artifacts are either provided or requested."),
                   trace)
              | Some passes_ =>
                  match GatherRunner_run E passes_
                          {| requestedUrl := href; gather_settings := settings |} with
                  | inl err => (throw err, trace)
                  | inr gathered =>
                      if truthy (setting settings "gatherMode")
                      then match saveArtifacts E gathered path with
                           | inl err => (throw err, trace ++ [Gathered passes_ href])
                           | inr _ =>
                               (ok (gathered, DStr href),
                                trace ++ [Gathered passes_ href;
                                          ArtifactsSaved gathered path])
                           end
                      else (ok (gathered, DStr href), trace ++ [Gathered passes_ href])
                  end
              end
          end
      | other =>
          (throw (new_Error ("You must provide a url to the runner. '" +:+ print_url other
                             +:+ "' provided.")), trace)
      end.
Proof.
  intros settings path Hmode. unfold gatherPhase. fold settings.
  unfold analyzeOnly in Hmode. rewrite Hmode.
  destruct (url runOpts) as [[|c u]|]; [reflexivity| |reflexivity].
  destruct (URL_href E (String c u)) as [href|]; [|reflexivity].
  unfold _gatherArtifactsFromBrowser.
  destruct (passes (config runOpts)) as [passes_|]; [|reflexivity].
  unfold mbind, lift, emit, ret, ok, throw. fold settings.
  destruct (GatherRunner_run E passes_ _) as [err|gathered]; [reflexivity|].
  destruct (truthy (setting settings "gatherMode")); [|reflexivity].
  fold path. destruct (saveArtifacts E gathered path) as [err|[]]; [reflexivity|].
  by rewrite <- app_assoc.
Qed.

Lemma gatherPhase_loading (E : Env) (runOpts : RunOpts) (trace : list Event) :
  let settings := config_settings (config runOpts) in
  let path := _getArtifactsPath E settings in
  analyzeOnly settings = true ->
  gatherPhase E runOpts trace
    = match loadArtifacts E path with
      | inl err => (throw err, trace)
      | inr loaded =>
          match get_prop (js_get "URL" loaded) "requestedUrl" with
          | inl err => (throw err, trace ++ [ArtifactsLoaded path])
          | inr persisted =>
              if negb (truthy persisted)
              then (throw (new_Error "Cannot run audit mode on empty URL"),
                    trace ++ [ArtifactsLoaded path])
              else if match url runOpts, persisted with
                      | Some supplied, DStr persisted_ =>
                          str_truthy supplied
                          && negb (equalWithExcludedFragments (URL_href E) supplied persisted_)
                      | Some supplied, _ => str_truthy supplied
                      | None, _ => false
                      end
              then (throw (new_Error "Cannot run audit mode on different URL"),
                    trace ++ [ArtifactsLoaded path])
              else (ok (loaded, persisted), trace ++ [ArtifactsLoaded path])
          end
      end.
Proof.
  intros settings path Hmode. unfold gatherPhase. fold settings.
  unfold analyzeOnly in Hmode. rewrite Hmode. fold path.
  unfold mbind, lift, emit.
  destruct (loadArtifacts E path) as [err|loaded]; [reflexivity|].
  unfold ok, raise, ret, throw.
  destruct (get_prop (js_get "URL" loaded) "requestedUrl") as [err|persisted];
    [reflexivity|].
  destruct (truthy persisted); cbn [negb]; [|reflexivity].
  destruct (url runOpts) as [supplied|]; [|by destruct persisted].
  destruct persisted; try (by destruct (str_truthy supplied)).
  by destruct (str_truthy supplied && negb _).
Qed.

Lemma run_phases (E : Env) (runOpts : RunOpts) (trace : list Event) :
  run E runOpts trace
    = match gatherPhase E runOpts trace with
      | (inl err, trace') => (throw err, trace')
      | (inr (gathered, requestedUrl), trace') =>
          if collectOnly (config_settings (config runOpts))
          then (ok None, trace')
          else auditPhase E runOpts gathered requestedUrl trace'
      end.
Proof.
  unfold run, mbind, collectOnly.
  destruct (gatherPhase E runOpts trace) as [[err|[gathered requestedUrl]] trace'];
    [reflexivity|].
  by destruct (truthy _ && negb _).
Qed.

(** X5.  Outside analyze-only mode a run that is given no URL, an empty one,
    one the URL parser refuses, or no passes to gather with, throws before
    anything is gathered, saved or audited. *)
Theorem run_rejects_before_gathering (E : Env) (runOpts : RunOpts) (trace : list Event) :
  analyzeOnly (config_settings (config runOpts)) = false ->
  (url runOpts = None \/ url runOpts = Some "" ->
   run E runOpts trace
     = (throw (new_Error ("You must provide a url to the runner. '"
                          +:+ default "undefined" (url runOpts) +:+ "' provided.")),
        trace))
  /\ (forall supplied,
        url runOpts = Some supplied -> supplied <> "" -> URL_href E supplied = None ->
        run E runOpts trace
          = (throw (new_Error "The url provided should have a proper protocol and hostname."),
             trace))
  /\ (forall supplied href,
        url runOpts = Some supplied -> supplied <> "" -> URL_href E supplied = Some href ->
        passes (config runOpts) = None ->
        run E runOpts trace
          = (throw (new_Error "No browser artifacts are either provided or requested."),
             trace)).
Proof.
  intros Hmode. rewrite run_phases, (gatherPhase_gathering _ _ _ Hmode).
  split; [|split].
  - by intros [->| ->].
  - intros [|c u] -> Hne Hhref; [done|]. by rewrite Hhref.
  - intros [|c u] href -> Hne Hhref Hpasses; [done|]. by rewrite Hhref, Hpasses.
Qed.

Lemma run_rejects_before_gathering_witness :
  run sampleEnv {| config := sampleConfig fullRunSettings; url := None |} []
    = (throw (new_Error "You must provide a url to the runner. 'undefined' provided."), [])
  /\ run sampleEnv {| config := sampleConfig gatherSettings; url := Some "example.com" |} []
     = (throw (new_Error "The url provided should have a proper protocol and hostname."),
        []).
Proof.
  split.
  - exact (proj1 (run_rejects_before_gathering sampleEnv
                    {| config := sampleConfig fullRunSettings; url := None |} [] eq_refl)
                 (or_introl eq_refl)).
  - destruct (run_rejects_before_gathering sampleEnv
                {| config := sampleConfig gatherSettings; url := Some "example.com" |}
                [] eq_refl) as (_ & Hinvalid & _).
    apply (Hinvalid "example.com"); [reflexivity | discriminate | reflexivity].
Defined.


(** X7.  Whether audits are configured is looked at after the gather phase:
    a collect-only run returns without them, and every other run throws
    [No audits to evaluate.] once the artifacts are loaded, or gathered and,
    in gather mode, saved. *)
Theorem audits_are_required_after_gathering (E : Env) (runOpts : RunOpts)
    (trace trace' : list Event) (gathered : Artifacts) (requestedUrl : Data) :
  gatherPhase E runOpts trace = (ok (gathered, requestedUrl), trace') ->
  audits (config runOpts) = None ->
  run E runOpts trace
    = if collectOnly (config_settings (config runOpts))
      then (ok None, trace')
      else (throw (new_Error "No audits to evaluate."), trace').
Proof.
  intros Hphase Haudits. rewrite run_phases, Hphase. unfold auditPhase.
  by rewrite Haudits.
Qed.

Lemma audits_are_required_after_gathering_witness :
  run sampleEnv {| config := {| config_settings :=
                                  <["auditMode" := DBool true]> gatherSettings;
                                passes := Some ["defaultPass"];
                                audits := None |};
                   url := Some "https://example.com/" |} []
    = (throw (new_Error "No audits to evaluate."),
       [Gathered ["defaultPass"] "https://example.com/";
        ArtifactsSaved
          [("URL", AData (DObj [("requestedUrl", DStr "https://example.com/");
                                ("finalUrl", DStr "https://example.com/")]));
           ("settings", ASettings (<["auditMode" := DBool true]> gatherSettings))]
          "/home/user/latest-run"]).
Proof.
  exact (audits_are_required_after_gathering sampleEnv
           {| config := {| config_settings := <["auditMode" := DBool true]> gatherSettings;
                           passes := Some ["defaultPass"];
                           audits := None |};
              url := Some "https://example.com/" |}
           []
           [Gathered ["defaultPass"] "https://example.com/";
            ArtifactsSaved
              [("URL", AData (DObj [("requestedUrl", DStr "https://example.com/");
                                    ("finalUrl", DStr "https://example.com/")]));
               ("settings", ASettings (<["auditMode" := DBool true]> gatherSettings))]
              "/home/user/latest-run"]
           [("URL", AData (DObj [("requestedUrl", DStr "https://example.com/");
                                 ("finalUrl", DStr "https://example.com/")]));
            ("settings", ASettings (<["auditMode" := DBool true]> gatherSettings))]
           (DStr "https://example.com/") eq_refl eq_refl).
Defined.

(** ** The audit phase, case by case *)

Lemma runAudit_trace (auditDefn : AuditDefn) (artifacts : Artifacts)
    (sharedAuditContext : SharedAuditContext) (trace : list Event) :
  exists invocations,
    (_runAudit auditDefn artifacts sharedAuditContext trace).2 = trace ++ invocations
    /\ onlyAuditsInvoked invocations.
Proof.
  destruct (checkRequiredArtifacts_result artifacts
              (requiredArtifacts (meta (implementation auditDefn)))) as [Hok|[err Herr]].
  - rewrite (runAudit_check_passed _ _ _ _ Hok). eexists [_]. split; [reflexivity|].
    by repeat constructor.
  - rewrite (runAudit_check_failed _ _ _ _ _ Herr). exists [].
    split; [by rewrite app_nil_r | constructor].
Qed.

Lemma runAuditsLoop_trace (auditDefns : list AuditDefn) (artifacts : Artifacts)
    (sharedAuditContext : SharedAuditContext) (trace : list Event) :
  exists invocations,
    (runAuditsLoop auditDefns artifacts sharedAuditContext trace).2 = trace ++ invocations
    /\ onlyAuditsInvoked invocations.
Proof.
  revert sharedAuditContext trace.
  induction auditDefns as [|auditDefn auditDefns IH]; intros sharedAuditContext trace.
  - exists []. split; [by rewrite app_nil_r | constructor].
  - cbn [runAuditsLoop].
    destruct (runAudit_trace auditDefn artifacts sharedAuditContext trace)
      as (first & Hfirst & Honly1).
    destruct (_runAudit auditDefn artifacts sharedAuditContext trace)
      as [[result shared1] trace1].
    destruct (IH shared1 trace1) as (more & Hmore & Honly2).
    destruct (runAuditsLoop auditDefns artifacts shared1 trace1)
      as [[results shared2] trace2].
    simpl in *. subst trace1. exists (first ++ more). split.
    + by rewrite Hmore, <- app_assoc.
    + by apply Forall_app.
Qed.

Lemma auditPhase_cases (E : Env) (runOpts : RunOpts) (gathered : Artifacts)
    (requestedUrl : Data) (trace : list Event) :
  let settings := config_settings (config runOpts) in
  auditPhase E runOpts gathered requestedUrl trace
    = match audits (config runOpts) with
      | None => (throw (new_Error "No audits to evaluate."), trace)
      | Some auditDefns =>
          match _runAudits settings auditDefns gathered [] trace with
          | (inl err, trace') => (throw err, trace')
          | (inr (auditResults, warnings), trace') =>
              match artifacts_LighthouseRunWarnings gathered with
              | inl err => (throw err, trace')
              | inr fromArtifacts =>
                  match get_prop (js_get "URL" gathered) "finalUrl" with
                  | inl err => (throw err, trace')
                  | inr finalUrl_ =>
                      match artifacts_Timing gathered with
                      | inl err => (throw err, trace')
                      | inr timingEntriesFromArtifacts =>
                          (ok (Some
                             {| lhr :=
                                  {| lhr_requestedUrl := requestedUrl;
                                     finalUrl := finalUrl_;
                                     runWarnings := map DStr warnings ++ fromArtifacts;
                                     runtimeError := getArtifactRuntimeError gathered;
                                     lhr_audits := resultsById auditResults;
                                     configSettings := settings;
                                     timing :=
                                       aggregateTiming timingEntriesFromArtifacts
                                                       (takeTimeEntries E) |};
                                artifacts := gathered |}),
                           trace')
                      end
                  end
              end
          end
      end.
Proof.
  intros settings. unfold auditPhase. fold settings.
  destruct (audits (config runOpts)) as [auditDefns|]; [|reflexivity].
  unfold mbind at 1.
  destruct (_runAudits settings auditDefns gathered [] trace)
    as [[err|[auditResults warnings]] trace']; [reflexivity|].
  unfold mbind, lift, ret, _getTiming.
  destruct (artifacts_LighthouseRunWarnings gathered) as [err|fromArtifacts];
    [reflexivity|].
  destruct (get_prop (js_get "URL" gathered) "finalUrl") as [err|finalUrl_];
    [reflexivity|].
  by destruct (artifacts_Timing gathered) as [err|timingEntriesFromArtifacts].
Qed.

Lemma runAudits_trace (settings : Settings) (auditDefns : list AuditDefn)
    (artifacts : Artifacts) (runWarnings : list string) (trace : list Event) :
  exists invocations,
    (_runAudits settings auditDefns artifacts runWarnings trace).2 = trace ++ invocations
    /\ onlyAuditsInvoked invocations.
Proof.
  destruct (checkSettings settings artifacts) as [err|[]] eqn:Hguard.
  - rewrite (runAudits_rejects _ _ _ _ _ _ Hguard). exists [].
    split; [by rewrite app_nil_r | constructor].
  - rewrite (runAudits_completes _ _ _ _ _ Hguard).
    destruct (runAuditsLoop_trace auditDefns artifacts
                {| settings := settings; LighthouseRunWarnings := runWarnings;
                   computedCache := ∅ |} trace) as (invocations & Htrace & Honly).
    destruct (runAuditsLoop _ _ _ _) as [[results sharedAfter] trace'].
    by exists invocations.
Qed.

Lemma auditPhase_trace (E : Env) (runOpts : RunOpts) (gathered : Artifacts)
    (requestedUrl : Data) (trace : list Event) :
  exists invocations,
    (auditPhase E runOpts gathered requestedUrl trace).2 = trace ++ invocations
    /\ onlyAuditsInvoked invocations.
Proof.
  rewrite auditPhase_cases.
  destruct (audits (config runOpts)) as [auditDefns|].
  - destruct (runAudits_trace (config_settings (config runOpts)) auditDefns gathered []
                trace) as (invocations & Htrace & Honly).
    exists invocations. split; [|done].
    destruct (_runAudits _ _ _ _ _) as [[err|[auditResults warnings]] trace'];
      [done|].
    destruct (artifacts_LighthouseRunWarnings gathered); [done|].
    destruct (get_prop (js_get "URL" gathered) "finalUrl"); [done|].
    by destruct (artifacts_Timing gathered).
  - exists []. split; [by rewrite app_nil_r | constructor].
Qed.

(** X8.  What a run leaves in the trace, whatever it is given: in
    analyze-only mode at most one load, then audit invocations; in the other
    modes at most one gathering, then, only in gather mode, one save at the
    artifacts path, then audit invocations.  No audit is invoked when nothing
    was loaded or gathered, in collect-only mode, or in gather mode when the
    artifacts were not saved. *)
Theorem run_trace_shape (E : Env) (runOpts : RunOpts) (trace : list Event) :
  let settings := config_settings (config runOpts) in
  let path := _getArtifactsPath E settings in
  exists phase invocations,
    (run E runOpts trace).2 = trace ++ phase ++ invocations
    /\ onlyAuditsInvoked invocations
    /\ (phase = [] -> invocations = [])
    /\ (collectOnly settings = true -> invocations = [])
    /\ (if analyzeOnly settings
        then phase = [] \/ phase = [ArtifactsLoaded path]
        else phase = []
             \/ (exists passes_ href,
                   phase = [Gathered passes_ href]
                   /\ (truthy (setting settings "gatherMode") = true -> invocations = []))
             \/ (exists passes_ href gathered,
                   truthy (setting settings "gatherMode") = true
                   /\ phase = [Gathered passes_ href; ArtifactsSaved gathered path])).
Proof.
  intros settings path.
  assert (Hstop : forall phase (r : Res (option RunnerResult)),
             (r, trace ++ phase).2 = trace ++ phase ++ []
             /\ onlyAuditsInvoked []
             /\ (phase = [] -> @nil Event = [])
             /\ (collectOnly settings = true -> @nil Event = [])).
  { intros phase r. simpl. rewrite app_nil_r. repeat split; constructor. }
  assert (Hnil : forall r : Res (option RunnerResult),
             (r, trace).2 = trace ++ [] ++ []
             /\ onlyAuditsInvoked []
             /\ (@nil Event = [] -> @nil Event = [])
             /\ (collectOnly settings = true -> @nil Event = [])).
  { intros r. simpl. rewrite app_nil_r. repeat split; constructor. }
  assert (Hgo : forall phase gathered requestedUrl,
             phase <> [] ->
             exists invocations,
               (if collectOnly settings
                then (ok None, trace ++ phase)
                else auditPhase E runOpts gathered requestedUrl (trace ++ phase)).2
                 = trace ++ phase ++ invocations
               /\ onlyAuditsInvoked invocations
               /\ (phase = [] -> invocations = [])
               /\ (collectOnly settings = true -> invocations = [])).
  { intros phase gathered requestedUrl Hne.
    destruct (collectOnly settings) eqn:Hcollect.
    - exists []. simpl. rewrite app_nil_r. repeat split; constructor.
    - destruct (auditPhase_trace E runOpts gathered requestedUrl (trace ++ phase))
        as (invocations & Htrace & Honly).
      exists invocations. rewrite Htrace, <- app_assoc. by repeat split. }
  rewrite run_phases. fold settings.
  destruct (analyzeOnly settings) eqn:Hmode.
  - rewrite (gatherPhase_loading _ _ _ Hmode). fold settings path.
    destruct (loadArtifacts E path) as [err|loaded].
    { exists [], []. destruct (Hnil (throw err)) as (? & ? & ? & ?). by auto 10. }
    assert (Hthrow : forall err : JSError,
               exists phase invocations,
                 (@throw (option RunnerResult) err, trace ++ [ArtifactsLoaded path]).2
                   = trace ++ phase ++ invocations
                 /\ onlyAuditsInvoked invocations
                 /\ (phase = [] -> invocations = [])
                 /\ (collectOnly settings = true -> invocations = [])
                 /\ (phase = [] \/ phase = [ArtifactsLoaded path])).
    { intros err. exists [ArtifactsLoaded path], [].
      destruct (Hstop [ArtifactsLoaded path] (throw err)) as (? & ? & ? & ?). by auto 10. }
    destruct (get_prop (js_get "URL" loaded) "requestedUrl") as [err|persisted];
      [apply Hthrow|].
    destruct (negb (truthy persisted)); [apply Hthrow|].
    destruct (match url runOpts with Some _ => _ | None => _ end); [apply Hthrow|].
    destruct (Hgo [ArtifactsLoaded path] loaded persisted) as (invocations & H);
      [done|].
    exists [ArtifactsLoaded path], invocations.
    destruct H as (? & ? & ? & ?). by auto 10.
  - rewrite (gatherPhase_gathering _ _ _ Hmode). fold settings path.
    assert (Hnone : forall err : JSError,
               exists phase invocations,
                 (@throw (option RunnerResult) err, trace).2
                   = trace ++ phase ++ invocations
                 /\ onlyAuditsInvoked invocations
                 /\ (phase = [] -> invocations = [])
                 /\ (collectOnly settings = true -> invocations = [])
                 /\ (phase = []
                     \/ (exists passes_ href,
                           phase = [Gathered passes_ href]
                           /\ (truthy (setting settings "gatherMode") = true ->
                               invocations = []))
                     \/ (exists passes_ href gathered,
                           truthy (setting settings "gatherMode") = true
                           /\ phase = [Gathered passes_ href;
                                       ArtifactsSaved gathered path]))).
    { intros err. exists [], [].
      destruct (Hnil (throw err)) as (? & ? & ? & ?). by auto 10. }
    destruct (url runOpts) as [[|c u]|]; [apply Hnone| |apply Hnone].
    destruct (URL_href E (String c u)) as [href|]; [|apply Hnone].
    destruct (passes (config runOpts)) as [passes_|]; [|apply Hnone].
    destruct (GatherRunner_run E passes_ _) as [err|gathered]; [apply Hnone|].
    destruct (truthy (setting settings "gatherMode")) eqn:Hgather.
    + destruct (saveArtifacts E gathered path) as [err|[]].
      * exists [Gathered passes_ href], [].
        destruct (Hstop [Gathered passes_ href] (throw err)) as (? & ? & ? & ?).
        repeat (split; [done|]). right. left. by exists passes_, href.
      * destruct (Hgo [Gathered passes_ href; ArtifactsSaved gathered path]
                      gathered (DStr href)) as (invocations & H); [done|].
        exists [Gathered passes_ href; ArtifactsSaved gathered path], invocations.
        destruct H as (? & ? & ? & ?). repeat (split; [done|]).
        right. right. by exists passes_, href, gathered.
    + destruct (Hgo [Gathered passes_ href] gathered (DStr href))
        as (invocations & H); [done|].
      exists [Gathered passes_ href], invocations.
      destruct H as (? & ? & ? & ?). repeat (split; [done|]).
      right. left. exists passes_, href. split; [done | discriminate].
Qed.

(** ** The results keyed by audit id *)


Lemma lastWithId_None (auditId : string) (l : list Audit.Result) :
  lastWithId auditId l = None <-> ~ In auditId (map Audit.id l).
Proof.
  induction l as [|r0 l IH]; simpl; [naive_solver|].
  destruct (lastWithId auditId l) as [r'|].
  - split; [discriminate|]. intros Hnot. exfalso. apply Hnot. right.
    apply Decidable.not_not; [|intros Hn; by apply IH in Hn].
    destruct (in_dec String.string_dec auditId (map Audit.id l)); [by left | by right].
  - destruct (String.eqb_spec (Audit.id r0) auditId) as [Heq|Hne].
    + split; [discriminate|]. intros Hnot. exfalso. apply Hnot. by left.
    + split; [|done]. intros _ [Heq|Hin]; [done|]. by apply IH in Hin.
Qed.

Lemma lastWithId_app (auditId : string) (before after : list Audit.Result) :
  lastWithId auditId (before ++ after)
    = match lastWithId auditId after with
      | Some r => Some r
      | None => lastWithId auditId before
      end.
Proof.
  induction before as [|r0 before IH]; simpl.
  - by destruct (lastWithId auditId after).
  - rewrite IH. by destruct (lastWithId auditId after).
Qed.

Lemma resultsById_fold_assoc (auditResults : list Audit.Result)
    (acc : list (string * Audit.Result)) (auditId : string) :
  assoc auditId
    (fold_left (fun resultsById audit => js_set (Audit.id audit) audit resultsById)
               auditResults acc)
    = match lastWithId auditId auditResults with
      | Some r => Some r
      | None => assoc auditId acc
      end.
Proof.
  revert acc. induction auditResults as [|r0 l IH]; intros acc; simpl; [reflexivity|].
  rewrite IH, assoc_js_set.
  destruct (lastWithId auditId l); [reflexivity|].
  by destruct (String.eqb (Audit.id r0) auditId).
Qed.

Lemma resultsById_fold_keys (auditResults : list Audit.Result)
    (acc : list (string * Audit.Result)) (auditId : string) :
  In auditId
    (map fst (fold_left (fun resultsById audit => js_set (Audit.id audit) audit resultsById)
                        auditResults acc))
  <-> In auditId (map Audit.id auditResults) \/ In auditId (map fst acc).
Proof.
  revert acc. induction auditResults as [|r0 l IH]; intros acc; simpl; [naive_solver|].
  rewrite IH, js_set_keys. naive_solver.
Qed.

Lemma resultsById_fold_NoDup (auditResults : list Audit.Result)
    (acc : list (string * Audit.Result)) :
  NoDup (map fst acc) ->
  NoDup (map fst (fold_left (fun resultsById audit =>
                               js_set (Audit.id audit) audit resultsById)
                            auditResults acc)).
Proof.
  revert acc. induction auditResults as [|r0 l IH]; intros acc Hnd; simpl; [done|].
  by apply IH, js_set_NoDup.
Qed.

Lemma resultsById_assoc (auditResults : list Audit.Result) (auditId : string) :
  assoc auditId (resultsById auditResults) = lastWithId auditId auditResults.
Proof.
  unfold resultsById. rewrite resultsById_fold_assoc.
  by destruct (lastWithId auditId auditResults).
Qed.

(** X9.  The results keyed by id: one key for each id among the results, no
    key twice, and under an id the last result that carries it (a later
    result overwrites an earlier one of the same id). *)
Theorem resultsById_last_result_wins (auditResults : list Audit.Result) :
  NoDup (map fst (resultsById auditResults))
  /\ (forall auditId,
        In auditId (map fst (resultsById auditResults))
        <-> In auditId (map Audit.id auditResults))
  /\ (forall auditId,
        assoc auditId (resultsById auditResults) = lastWithId auditId auditResults)
  /\ (forall before r after,
        auditResults = before ++ r :: after ->
        ~ In (Audit.id r) (map Audit.id after) ->
        assoc (Audit.id r) (resultsById auditResults) = Some r).
Proof.
  repeat split.
  - apply resultsById_fold_NoDup. constructor.
  - unfold resultsById. rewrite resultsById_fold_keys. simpl. naive_solver.
  - unfold resultsById. rewrite resultsById_fold_keys. naive_solver.
  - apply resultsById_assoc.
  - intros before r after -> Hlast.
    rewrite resultsById_assoc, lastWithId_app. simpl.
    apply lastWithId_None in Hlast. rewrite Hlast.
    by rewrite String.eqb_refl.
Qed.


(** ** The order of the timing entries *)

Lemma Map_set_fst {V} (k : Qc) (v : V) (m : list (Qc * V)) :
  map fst (Map_set k v m)
    = if bool_decide (k ∈ map fst m) then map fst m else map fst m ++ [k].
Proof.
  induction m as [|[k' v'] m IH]; simpl; [reflexivity|].
  destruct (decide (k' = k)) as [->|Hne]; simpl.
  - rewrite bool_decide_eq_true_2; [reflexivity | by left].
  - rewrite IH. destruct (bool_decide (k ∈ map fst m)) eqn:Hin.
    + apply bool_decide_eq_true in Hin. rewrite bool_decide_eq_true_2; [done | by right].
    + apply bool_decide_eq_false in Hin.
      rewrite bool_decide_eq_false_2; [done|].
      rewrite elem_of_cons. intros [?|?]; congruence.
Qed.

Lemma Map_set_fresh {V} (k : Qc) (v : V) (m : list (Qc * V)) :
  k ∉ map fst m -> Map_set k v m = m ++ [(k, v)].
Proof.
  induction m as [|[k' v'] m IH]; simpl; intros Hk; [reflexivity|].
  apply not_elem_of_cons in Hk as [Hne Hk].
  destruct (decide (k' = k)) as [->|_]; [done|]. by rewrite IH.
Qed.

Lemma new_Map_fresh {V} (keyValues m : list (Qc * V)) :
  NoDup (map fst (m ++ keyValues)) ->
  fold_left (fun m kv => Map_set kv.1 kv.2 m) keyValues m = m ++ keyValues.
Proof.
  revert m. induction keyValues as [|[k v] keyValues IH]; intros m Hnd; simpl.
  - by rewrite app_nil_r.
  - rewrite Map_set_fresh.
    + rewrite IH; rewrite <- app_assoc; done.
    + rewrite map_app in Hnd. apply NoDup_app in Hnd as (_ & Hdisj & _).
      intros Hin. apply (Hdisj k Hin). by left.
Qed.

Lemma filter_filter_ext {A} (p q r : A -> bool) (l : list A) :
  (forall x, p x = q x && r x) ->
  List.filter p l = List.filter q (List.filter r l).
Proof.
  intros H. induction l as [|x l IH]; simpl; [reflexivity|].
  rewrite H. destruct (r x); simpl.
  - rewrite andb_true_r. destruct (q x); by rewrite IH.
  - by rewrite andb_false_r.
Qed.

Lemma new_Map_fold_fst {V} (keyValues : list (Qc * V)) (m : list (Qc * V)) :
  map fst (fold_left (fun m kv => Map_set kv.1 kv.2 m) keyValues m)
    = map fst m
      ++ List.filter (fun k => negb (bool_decide (k ∈ map fst m)))
                     (firstOccurrences (map fst keyValues)).
Proof.
  revert m. induction keyValues as [|[k v] keyValues IH]; intros m; simpl.
  - by rewrite app_nil_r.
  - rewrite IH, Map_set_fst.
    destruct (bool_decide (k ∈ map fst m)) eqn:Hin; simpl.
    + f_equal. apply filter_filter_ext. intros x.
      destruct (bool_decide (x ∈ map fst m)) eqn:Hx; simpl; [reflexivity|].
      symmetry. apply negb_true_iff, bool_decide_eq_false. intros ->.
      by rewrite Hin in Hx.
    + rewrite <- app_assoc. simpl. do 2 f_equal.
      apply filter_filter_ext. intros x.
      apply bool_decide_eq_false in Hin.
      destruct (decide (x = k)) as [->|Hne].
      * rewrite (bool_decide_eq_true_2 (k = k)) by done. rewrite andb_false_r.
        apply negb_false_iff, bool_decide_eq_true, elem_of_app. right. by left.
      * rewrite (bool_decide_eq_false_2 (x = k)) by done. simpl. rewrite andb_true_r.
        f_equal. apply bool_decide_ext. rewrite elem_of_app, list_elem_of_singleton.
        naive_solver.
Qed.

Lemma Map_set_keyed (k : Qc) (e : PerformanceEntry) (m : list (Qc * PerformanceEntry)) :
  k = startTime e ->
  Forall (fun kv => kv.1 = startTime kv.2) m ->
  Forall (fun kv => kv.1 = startTime kv.2) (Map_set k e m).
Proof.
  intros Hk. induction m as [|[k' e'] m IH]; simpl; intros Hm.
  - by repeat constructor.
  - apply Forall_cons in Hm as [Hhd Hm].
    destruct (decide (k' = k)) as [->|Hne]; constructor; auto.
Qed.

Lemma new_Map_keyed (ts : list PerformanceEntry) (m : list (Qc * PerformanceEntry)) :
  Forall (fun kv => kv.1 = startTime kv.2) m ->
  Forall (fun kv => kv.1 = startTime kv.2)
         (fold_left (fun m kv => Map_set kv.1 kv.2 m)
                    (map (fun entry => (startTime entry, entry)) ts) m).
Proof.
  revert m. induction ts as [|e ts IH]; intros m Hm; simpl; [done|].
  by apply IH, Map_set_keyed.
Qed.

Lemma firstOccurrences_NoDup (l : list Qc) :
  NoDup l -> firstOccurrences l = l.
Proof.
  induction l as [|t l IH]; simpl; intros Hnd; [reflexivity|].
  apply NoDup_cons in Hnd as [Ht Hnd]. rewrite (IH Hnd). f_equal.
  apply forallb_filter_id, forallb_forall. intros t' Hin.
  apply negb_true_iff, bool_decide_eq_false. intros ->.
  by apply Ht, list_elem_of_In.
Qed.

Lemma dedupedEntries_startTimes (fromArtifacts fromRunner : list PerformanceEntry) :
  map startTime (dedupedEntries fromArtifacts fromRunner)
    = firstOccurrences (map startTime (fromArtifacts ++ fromRunner)).
Proof.
  unfold dedupedEntries, Map_values, new_Map.
  set (all := fromArtifacts ++ fromRunner).
  pose proof (new_Map_keyed all [] (List.Forall_nil _)) as Hkeyed.
  pose proof (new_Map_fold_fst (map (fun entry => (startTime entry, entry)) all) [])
    as Hfst.
  set (m := fold_left _ _ _) in *.
  transitivity (map fst m).
  - clear Hfst. induction Hkeyed as [|[k e] m' Hk _ IH]; simpl; [reflexivity|].
    simpl in Hk. by rewrite IH, Hk.
  - rewrite Hfst. simpl. rewrite map_map. simpl.
    apply forallb_filter_id, forallb_forall. by intros x _.
Qed.

Lemma firstOccurrences_length (l : list Qc) :
  length (firstOccurrences l) <= length l.
Proof.
  induction l as [|t l IH]; simpl; [lia|].
  pose proof (List.filter_length_le (fun t' => negb (bool_decide (t' = t)))
                (firstOccurrences l)). lia.
Qed.

(** X11.  The entries [_getTiming] keeps come in the order in which their
    start times occur first, the artifacts' entries before the runner's; the
    entry kept for a start time that occurs again is the later one, at the
    place of the earlier one.  Where no two entries start at the same time
    all are kept, as they come. *)
Theorem getTiming_keeps_first_positions
    (timingEntriesFromArtifacts timingEntriesFromRunner : list PerformanceEntry) :
  let all := timingEntriesFromArtifacts ++ timingEntriesFromRunner in
  let result := aggregateTiming timingEntriesFromArtifacts timingEntriesFromRunner in
  let kept := dedupedEntries timingEntriesFromArtifacts timingEntriesFromRunner in
  entries result = map truncateEntry kept
  /\ map startTime kept = firstOccurrences (map startTime all)
  /\ (forall n e, kept !! n = Some e -> lastStartingAt (startTime e) all = Some e)
  /\ (NoDup (map startTime all) -> entries result = map truncateEntry all)
  /\ length (entries result) <= length all.
Proof.
  intros all result kept.
  pose proof (dedupedEntries_startTimes timingEntriesFromArtifacts
                timingEntriesFromRunner) as Horder.
  fold all kept in Horder.
  destruct (dedupedEntries_spec timingEntriesFromArtifacts timingEntriesFromRunner)
    as [Hnd Hin]. fold all kept in Hnd, Hin.
  split; [reflexivity|]. split; [done|]. split; [|split].
  - intros n e Hn. apply Hin. by eapply list_elem_of_lookup_2.
  - intros Hdistinct. unfold result, aggregateTiming. cbn [entries]. f_equal.
    unfold dedupedEntries, new_Map, Map_values. fold all.
    rewrite new_Map_fresh.
    + simpl. rewrite map_map. simpl. apply map_id.
    + simpl. by rewrite map_map.
  - unfold result, aggregateTiming. cbn [entries]. fold kept.
    rewrite length_map, <- (length_map startTime kept), Horder.
    etransitivity; [apply firstOccurrences_length|]. by rewrite length_map.
Qed.

(** ** What each result says of its audit *)



(** ** Rounding to hundredths *)

Lemma Qsgn_num_comp (p q : Q) : (p == q)%Q -> Z.sgn (Qnum p) = Z.sgn (Qnum q).
Proof.
  unfold Qeq. intros H. apply (f_equal Z.sgn) in H.
  rewrite !Z.sgn_mul in H. simpl in H. by rewrite !Z.mul_1_r in H.
Qed.

Lemma Qfloor_half (k : Z) : Qfloor (inject_Z k + (1 # 2)) = k.
Proof.
  unfold Qfloor, Qplus, inject_Z. simpl.
  symmetry. apply (Z.div_unique _ _ _ 1); lia.
Qed.

Lemma toFixed2_idempotent (x : Qc) : toFixed2 (toFixed2 x) = toFixed2 x.
Proof.
  destruct (Qle_bool (10 ^ 21) (Qabs x)) eqn:Hbig.
  { unfold toFixed2. by rewrite !Hbig. }
  set (n := Qfloor (Qabs x * 100 + (1 # 2))).
  set (m := (Z.sgn (Qnum x) * n)%Z).
  assert (Hn : (0 <= n)%Z).
  { unfold n. apply (Qfloor_resp_le 0).
    pose proof (Qabs_nonneg x) as Hx. nra. }
  set (y := Q2Qc (inject_Z m / 100)).
  assert (Hy : (y == inject_Z m / 100)%Q) by apply Qred_correct.
  assert (Hx : toFixed2 x = y) by (unfold toFixed2; by rewrite Hbig).
  rewrite Hx. unfold toFixed2.
  destruct (Qle_bool (10 ^ 21) (Qabs y)); [reflexivity|].
  assert (Hfloor : Qfloor (Qabs y * 100 + (1 # 2)) = Z.abs m).
  { rewrite <- (Qfloor_half (Z.abs m)). apply Qfloor_comp.
    rewrite Hy. unfold Qdiv. rewrite Qabs_Qmult.
    change (Qabs (inject_Z m)) with (inject_Z (Z.abs m)).
    change (Qabs (/ 100)) with (1 # 100)%Q. field. }
  assert (Hsgn : Z.sgn (Qnum y) = Z.sgn m).
  { rewrite (Qsgn_num_comp _ _ Hy). unfold Qdiv, Qmult, inject_Z. simpl.
    by rewrite Z.mul_1_r. }
  rewrite Hfloor, Hsgn, Z.mul_comm, Z.abs_sgn. reflexivity.
Qed.

(** X13.  Rounding to hundredths leaves what is rounded already as it is:
    an entry of the result, given to the rounding again, comes back
    unchanged, and so does every number of hundredths. *)
Theorem truncated_entries_are_fixed (x : Qc) (entry : PerformanceEntry) (n : Z) :
  toFixed2 (toFixed2 x) = toFixed2 x
  /\ truncateEntry (truncateEntry entry) = truncateEntry entry
  /\ toFixed2 (Q2Qc (n # 100)) = Q2Qc (n # 100).
Proof.
  split; [apply toFixed2_idempotent|]. split.
  - unfold truncateEntry. cbn [startTime duration name entryType].
    by rewrite !toFixed2_idempotent.
  - unfold toFixed2.
    assert (Hy : (Q2Qc (n # 100) == n # 100)%Q) by apply Qred_correct.
    destruct (Qle_bool (10 ^ 21) (Qabs (Q2Qc (n # 100)))); [reflexivity|].
    apply Qc_is_canon. unfold Q2Qc at 1. cbn [this]. rewrite Qred_correct.
    assert (Hfloor : Qfloor (Qabs (Q2Qc (n # 100)) * 100 + (1 # 2)) = Z.abs n).
    { rewrite <- (Qfloor_half (Z.abs n)). apply Qfloor_comp.
      rewrite Hy. change (Qabs (n # 100)) with (Z.abs n # 100)%Q.
      unfold Qeq. simpl. lia. }
    assert (Hsgn : Z.sgn (Qnum (Q2Qc (n # 100))) = Z.sgn n).
    { by rewrite (Qsgn_num_comp _ _ Hy). }
    rewrite Hfloor, Hsgn, Z.mul_comm, Z.abs_sgn.
    transitivity (n # 100)%Q; [|symmetry; apply Qred_correct].
    unfold Qeq, Qdiv, Qmult, inject_Z. simpl. lia.
Qed.

